(** * Script-to-Video front end: the three React panels, embedded and verified

    The repository is a React client: a generation form ([VideoGenerator]),
    an edit form ([VideoEditor]) and a cloud panel ([AzureIntegration]),
    wired together by [App].  Each component is a record of [useState]
    cells plus handlers.  A handler that awaits a [fetch] is cut at the
    await: its first half runs up to the request, its second half runs
    when the promise settles.  What a handler does to the outside world
    (alert, console, fetch, timers, the parent's callback) is returned as
    a list of effects, in program order. *)

From Stdlib Require Import ZArith QArith Lqa String Ascii List.
From Stdlib Require DecimalString.
From stdpp Require Import base option gmap strings list fin_maps.

Local Open Scope string_scope.
Set Warnings "-register-all".

(** ** JavaScript values

    The values the components hold in state and exchange with the backend
    are JSON documents, plus [undefined].  Objects are finite maps from
    property name to value.  Numbers are [NaN] and the integers (the safe
    ones, which print as plain decimals); no modelled code path computes
    with such a number, they are only stored, tested for truthiness and
    printed. *)

Inductive value : Type :=
  | VUndefined
  | VNull
  | VBool (b : bool)
  | VNaN
  | VNum (n : Z)
  | VStr (s : string)
  | VArr (l : list value)
  | VObj (m : gmap string value).

(** JavaScript's ToBoolean. *)
Definition truthy (v : value) : bool :=
  match v with
  | VUndefined | VNull | VNaN => false
  | VBool b => b
  | VNum n => negb (n =? 0)%Z
  | VStr s => negb (s =? "")
  | VArr _ | VObj _ => true
  end.

(** [a || b] on values. *)
Definition js_or (a b : value) : value := if truthy a then a else b.

Definition nullish (v : value) : bool :=
  match v with
  | VUndefined | VNull => true
  | _ => false
  end.

(** ** [String.prototype.trim]

    Strings are UTF-8 text.  The characters [trim] strips are ECMAScript's
    WhiteSpace and LineTerminator: TAB, LF, VT, FF, CR, SP, then NBSP
    (C2 A0), U+1680 (E1 9A 80), U+2000..U+200A (E2 80 80..8A), LS and PS
    (E2 80 A8, E2 80 A9), U+202F (E2 80 AF), U+205F (E2 81 9F), U+3000
    (E3 80 80) and U+FEFF (EF BB BF). *)
Definition byte_in (a : ascii) (codes : list nat) : bool :=
  existsb (Nat.eqb (nat_of_ascii a)) codes.

Definition white1 (a : ascii) : bool := byte_in a [9; 10; 11; 12; 13; 32].

Definition white2 (a b : ascii) : bool := byte_in a [194] && byte_in b [160].

Definition white3 (a b c : ascii) : bool :=
  (byte_in a [225] && byte_in b [154] && byte_in c [128])
  || (byte_in a [226] && byte_in b [128]
      && byte_in c [128; 129; 130; 131; 132; 133; 134; 135; 136; 137; 138; 168; 169; 175])
  || (byte_in a [226] && byte_in b [129] && byte_in c [159])
  || (byte_in a [227] && byte_in b [128] && byte_in c [128])
  || (byte_in a [239] && byte_in b [187] && byte_in c [191]).

(** Drop leading white space; with [backwards] the bytes come last to
    first, as when stripping from the end. *)
Fixpoint strip (backwards : bool) (s : list ascii) : list ascii :=
  match s with
  | [] => []
  | a :: t =>
      if white1 a then strip backwards t
      else
        match t with
        | b :: t2 =>
            if (if backwards then white2 b a else white2 a b) then strip backwards t2
            else
              match t2 with
              | c :: t3 =>
                  if (if backwards then white3 c b a else white3 a b c)
                  then strip backwards t3
                  else s
              | [] => s
              end
        | [] => s
        end
  end.

Definition trim (s : string) : string :=
  string_of_list_ascii
    (rev (strip true (rev (strip false (list_ascii_of_string s))))).

(** ** Errors and results *)

(** A thrown error object; the handlers read only its [message]. *)
Record error : Type := { name : string; message : string }.

Definition result (A : Type) : Type := error + A.

(** Decimal spelling of an integral Number. *)
Definition number_to_string (n : Z) : string :=
  DecimalString.NilZero.string_of_int (Z.to_int n).

(** Decimal spelling of an array index. *)
Definition index_key (i : nat) : string :=
  DecimalString.NilZero.string_of_uint (Nat.to_uint i).

(** JavaScript's ToString on the values above ([Array.prototype.join]
    spells [null] and [undefined] elements as the empty string). *)
Fixpoint to_string (v : value) : string :=
  match v with
  | VUndefined => "undefined"
  | VNull => "null"
  | VBool b => if b then "true" else "false"
  | VNaN => "NaN"
  | VNum n => number_to_string n
  | VStr s => s
  | VArr l =>
      (fix join (xs : list value) : string :=
         match xs with
         | [] => ""
         | x :: rest =>
             let elt := if nullish x then "" else to_string x in
             match rest with
             | [] => elt
             | _ :: _ => elt ++ "," ++ join rest
             end
         end) l
  | VObj _ => "[object Object]"
  end.

(** [new Error(v)]: the message is absent ([""]) for [undefined]. *)
Definition new_Error (v : value) : error :=
  {| name := "Error";
     message := match v with VUndefined => "" | _ => to_string v end |}.

(** The TypeError raised by reading property [k] of [null] or
    [undefined], worded as V8 words it. *)
Definition read_of_nullish (v : value) (k : string) : error :=
  {| name := "TypeError";
     message := "Cannot read properties of " ++ to_string v
                ++ " (reading '" ++ k ++ "')" |}.

(** ** Properties

    Own enumerable properties, which is what object spread copies:
    the entries of an object, the indexed elements of an array, the
    indexed units of a string (one per character on ASCII text), and
    nothing for the other values, [null] and [undefined] included. *)
Definition indexed {A : Type} (f : A → value) (l : list A) : gmap string value :=
  list_to_map (imap (λ i x, (index_key i, f x)) l).

Definition own_props (v : value) : gmap string value :=
  match v with
  | VObj m => m
  | VArr l => indexed id l
  | VStr s => indexed (λ a, VStr (String a "")) (list_ascii_of_string s)
  | _ => ∅
  end.

(** [v[k]] and [v.k].  Own properties and the [length] of arrays and
    strings are modelled; inherited ones are not (no property name in the
    components' source is the name of a prototype member). *)
Definition get_prop (v : value) (k : string) : result value :=
  match v with
  | VUndefined | VNull => inl (read_of_nullish v k)
  | _ =>
      inr match own_props v !! k with
          | Some x => x
          | None =>
              match v with
              | VArr l => if k =? "length" then VNum (Z.of_nat (length l)) else VUndefined
              | VStr s => if k =? "length" then VNum (Z.of_nat (String.length s)) else VUndefined
              | _ => VUndefined
              end
          end
  end.

(** [v?.k] *)
Definition get_opt (v : value) (k : string) : value :=
  match get_prop v k with
  | inl _ => VUndefined
  | inr x => x
  end.

(** The JSON document that [JSON.stringify(v)] spells: properties whose
    value is [undefined] are left out, [undefined] array elements and
    [NaN] are spelled [null].  The request bodies below are recorded as
    this document (its text is determined up to the order of properties). *)
Fixpoint JSON_stringify (v : value) : value :=
  match v with
  | VNaN => VNull
  | VArr l =>
      VArr (map (λ x, match x with VUndefined => VNull | _ => JSON_stringify x end) l)
  | VObj m =>
      VObj (omap (λ x, match x with VUndefined => None | _ => Some (JSON_stringify x) end) m)
  | _ => v
  end.

(** ** The world outside a component *)

Record request : Type := {
  method : string;
  headers : gmap string string;
  body : value
}.

Inductive effect : Type :=
  | Alert (msg : string)
  | ConsoleError (label : string) (e : error)
  | Fetch (url : string) (init : option request)
  | OnSave (arg : value)
  | SetInterval (ms : Z)
  | ClearInterval.

(** How an awaited [fetch] followed by [response.json()] settles: the fetch
    rejects, or it resolves to a response with its [ok] flag whose body
    either parses to a document or makes [json()] reject. *)
Inductive settled : Type :=
  | Rejected (e : error)
  | Resolved (ok : bool) (json : result value).

(** A request failed when the fetch rejected, the body did not parse, or
    the response is not ok. *)
Definition failed (o : settled) : bool :=
  match o with
  | Rejected _ => true
  | Resolved _ (inl _) => true
  | Resolved ok (inr _) => negb ok
  end.

(** The error that then reaches the [catch] block of the handlers that
    throw [new Error(data.error || fallback)] on a response that is not
    ok. *)
Definition caught (fallback : string) (o : settled) : error :=
  match o with
  | Rejected e => e
  | Resolved _ (inl e) => e
  | Resolved _ (inr data) =>
      match get_prop data "error" with
      | inl e => e
      | inr err => new_Error (js_or err (VStr fallback))
      end
  end.

Definition post_json (b : value) : option request :=
  Some {| method := "POST";
          headers := {[ "Content-Type" := "application/json" ]};
          body := JSON_stringify b |}.

(** ** Handlers

    A handler reads and writes the component's state cells, may throw,
    and logs its effects.  [try_catch] and [try_finally] are the
    statements of the same name; effects logged before a throw stay
    logged. *)
Definition M (S A : Type) : Type := S → result A * S * list effect.

Section Handler.
Context {S : Type}.

Definition ret {A : Type} (a : A) : M S A := λ s, (inr a, s, []).

Definition bind {A B : Type} (m : M S A) (f : A → M S B) : M S B :=
  λ s,
    let '(r, s1, t1) := m s in
    match r with
    | inl e => (inl e, s1, t1)
    | inr a => let '(r2, s2, t2) := f a s1 in (r2, s2, (t1 ++ t2)%list)
    end.

Definition throw {A : Type} (e : error) : M S A := λ s, (inl e, s, []).

Definition lift {A : Type} (r : result A) : M S A := λ s, (r, s, []).

Definition emit (e : effect) : M S unit := λ s, (inr tt, s, [e]).

Definition gets {A : Type} (f : S → A) : M S A := λ s, (inr (f s), s, []).

Definition modify (f : S → S) : M S unit := λ s, (inr tt, f s, []).

Definition try_catch {A : Type} (m : M S A) (h : error → M S A) : M S A :=
  λ s,
    let '(r, s1, t1) := m s in
    match r with
    | inl e => let '(r2, s2, t2) := h e s1 in (r2, s2, (t1 ++ t2)%list)
    | inr a => (inr a, s1, t1)
    end.

(** The [finally] blocks of the components only set a state cell or
    clear a timer; the outcome of the protected block is kept. *)
Definition try_finally {A : Type} (m : M S A) (f : M S unit) : M S A :=
  λ s,
    let '(r, s1, t1) := m s in
    let '(_, s2, t2) := f s1 in
    (r, s2, (t1 ++ t2)%list).

(** [const response = await fetch(..); const data = await response.json()]
    once the request has settled as [o]: the pair of [response.ok] and
    [data], or the rejection thrown at the await. *)
Definition await_response (o : settled) : M S (bool * value) :=
  match o with
  | Rejected e => throw e
  | Resolved _ (inl e) => throw e
  | Resolved ok (inr data) => ret (ok, data)
  end.
End Handler.

#[global] Instance handler_ret {S : Type} : MRet (M S) := @ret S.
#[global] Instance handler_bind {S : Type} : MBind (M S) := λ A B f m, bind m f.

(** What a handler run leaves behind. *)
Definition outcome_of {S A : Type} (x : result A * S * list effect) : result A := x.1.1.
Definition state_of {S A : Type} (x : result A * S * list effect) : S := x.1.2.
Definition effects_of {S A : Type} (x : result A * S * list effect) : list effect := x.2.

(** A handler is framed by a relation [R] on states and a predicate [Q]
    on effects when every run relates the state before to the state after
    and logs only effects in [Q]. *)
Definition framed {S A : Type} (R : relation S) (Q : effect → Prop) (m : M S A) : Prop :=
  ∀ s, R s (state_of (m s)) ∧ Forall Q (effects_of (m s)).

Definition is_fetch (e : effect) : bool :=
  match e with
  | Fetch _ _ => true
  | _ => false
  end.

(** The TypeError of [Object.keys], [Object.entries] and the like on
    [null] or [undefined], worded as V8 words it. *)
Definition not_an_object : error :=
  {| name := "TypeError"; message := "Cannot convert undefined or null to object" |}.

(** [Object.keys(v).length] *)
Definition count_keys (v : value) : result nat :=
  if nullish v then inl not_an_object else inr (size (own_props v)).

Definition is_alert (e : effect) : bool :=
  match e with
  | Alert _ => true
  | _ => false
  end.

Definition is_onSave (e : effect) : bool :=
  match e with
  | OnSave _ => true
  | _ => false
  end.

(** The body of a request, [undefined] when it has none. *)
Definition request_body (e : effect) : value :=
  match e with
  | Fetch _ (Some init) => body init
  | _ => VUndefined
  end.

(** The endpoint a request goes to. *)
Definition fetched_url (e : effect) : option string :=
  match e with
  | Fetch url _ => Some url
  | _ => None
  end.

(** * The edit form: [VideoEditor.jsx] *)
Module VideoEditor.

Record state : Type := {
  editConfig : value;
  selectedPreset : string;
  isEditing : bool
}.

Record props : Type := {
  videoPath : value;
  (** whether the parent passed an [onSave] callback *)
  onSave : bool
}.

(** [useState({})], [useState('')], [useState(false)] *)
Definition initial : state :=
  {| editConfig := VObj ∅; selectedPreset := ""; isEditing := false |}.

Definition setEditConfig (c : value) : M state unit :=
  modify (λ s, {| editConfig := c;
                  selectedPreset := selectedPreset s;
                  isEditing := isEditing s |}).

Definition setSelectedPreset (k : string) : M state unit :=
  modify (λ s, {| editConfig := editConfig s;
                  selectedPreset := k;
                  isEditing := isEditing s |}).

Definition setIsEditing (b : bool) : M state unit :=
  modify (λ s, {| editConfig := editConfig s;
                  selectedPreset := selectedPreset s;
                  isEditing := b |}).

(** The updater [prev => ({...prev, [section]: {...prev[section], [key]: value}})]
    of [updateEditConfig]. *)
Definition merged (section key : string) (v : value) (prev : value) : result value :=
  match get_prop prev section with
  | inl e => inl e
  | inr sub =>
      inr (VObj (<[section := VObj (<[key := v]> (own_props sub))]> (own_props prev)))
  end.

Definition updateEditConfig (section key : string) (v : value) : M state unit :=
  prev ← gets editConfig;
  cfg ← lift (merged section key v prev);
  setEditConfig cfg.

(** [applyPreset], up to its first await ... *)
Definition applyPreset_begin : M state unit :=
  emit (Fetch "/api/editor/presets" None).

(** ... and from the moment the request has settled. *)
Definition applyPreset_settle (presetKey : string) (o : settled) : M state unit :=
  try_catch
    ('(_, data) ← await_response o;
     presets ← lift (get_prop data "presets");
     preset ← lift (get_prop presets presetKey);
     if truthy preset then
       config ← lift (get_prop preset "config");
       setEditConfig config;;
       setSelectedPreset presetKey
     else mret tt)
    (λ error, emit (ConsoleError "Error applying preset:" error)).

(** [fetch('/api/editor/edit', { method: 'POST', headers: ..,
     body: JSON.stringify({ video_path: .., edit_config: .. }) })] *)
Definition edit_request (path cfg : value) : effect :=
  Fetch "/api/editor/edit"
    (post_json (VObj {[ "video_path" := path; "edit_config" := cfg ]})).

(** One [applyPreset], nothing else running in between. *)
Definition applyPreset (presetKey : string) (o : settled) : M state unit :=
  applyPreset_begin;;
  applyPreset_settle presetKey o.

(** [saveEdits] up to its await; the result tells whether a request
    was sent. *)
Definition saveEdits_begin (p : props) : M state bool :=
  if negb (truthy (videoPath p)) then
    emit (Alert "No video selected for editing");;
    mret false
  else
    setIsEditing true;;
    cfg ← gets editConfig;
    emit (edit_request (videoPath p) cfg);;
    mret true.

Definition saveEdits_settle (p : props) (o : settled) : M state unit :=
  try_finally
    (try_catch
       ('(ok, data) ← await_response o;
        if ok : bool then
          (if onSave p then
             arg ← lift (get_prop data "edited_path");
             emit (OnSave arg)
           else mret tt);;
          emit (Alert "Video edited successfully!")
        else
          err ← lift (get_prop data "error");
          throw (new_Error (js_or err (VStr "Failed to edit video"))))
       (λ error,
          emit (ConsoleError "Error editing video:" error);;
          emit (Alert ("Error editing video: " ++ message error))))
    (setIsEditing false).

(** The whole of [saveEdits] when nothing else runs in between. *)
Definition saveEdits (p : props) (o : settled) : M state unit :=
  sent ← saveEdits_begin p;
  if sent : bool then saveEdits_settle p o else mret tt.

(** [onClick={() => setEditConfig({})}] of the Reset button *)
Definition reset : M state unit := setEditConfig (VObj ∅).

(** ** The form controls

    What arrives at a change handler: an input hands over what
    [parseFloat] or [parseInt] made of its text, a slider its first
    thumb, a select or text input its string, a switch whether it is
    checked. *)
Inductive control : Type :=
  | start_time (parsed : value)
  | end_time (parsed : value)
  | width (parsed : value)
  | height (parsed : value)
  | fade_in (thumb : value)
  | fade_out (thumb : value)
  | bw_effect (checked : bool)
  | speed_effect (checked : bool)
  | slow_effect (checked : bool)
  | overlay_text (text : value)
  | font_size (thumb : value)
  | text_color (choice : value)
  | text_start (parsed : value)
  | text_duration (parsed : value)
  | text_position (choice : value)
  | volume_slider (thumb : value)
  | reset_button.

(** [onCheckedChange] of the three effect switches *)
Definition effect_switch (effect_id : string) (checked : bool) : M state unit :=
  if checked then updateEditConfig "effects" "list" (VArr [VStr effect_id])
  else mret tt.

Definition handle (c : control) : M state unit :=
  match c with
  | start_time x => updateEditConfig "trim" "start" (js_or x (VNum 0))
  | end_time x => updateEditConfig "trim" "end" x
  | width x => updateEditConfig "resize" "width" x
  | height x => updateEditConfig "resize" "height" x
  | fade_in x => updateEditConfig "fade_in" "duration" x
  | fade_out x => updateEditConfig "fade_out" "duration" x
  | bw_effect checked => effect_switch "black_and_white" checked
  | speed_effect checked => effect_switch "speed_up" checked
  | slow_effect checked => effect_switch "slow_motion" checked
  | overlay_text x => updateEditConfig "text_overlays" "text" x
  | font_size x => updateEditConfig "text_overlays" "fontsize" x
  | text_color x => updateEditConfig "text_overlays" "color" x
  | text_start x => updateEditConfig "text_overlays" "start" (js_or x (VNum 0))
  | text_duration x => updateEditConfig "text_overlays" "duration" (js_or x (VNum 5))
  | text_position x => updateEditConfig "text_overlays" "position" x
  | volume_slider x => updateEditConfig "volume" "factor" x
  | reset_button => reset
  end.

Fixpoint handle_all (cs : list control) : M state unit :=
  match cs with
  | [] => mret tt
  | c :: rest => handle c;; handle_all rest
  end.

(** [editConfig.effects?.list] *)
Definition effects_list (s : state) : value :=
  get_opt (get_opt (editConfig s) "effects") "list".

Definition effect_ids : list string :=
  ["black_and_white"; "speed_up"; "slow_motion"].

(** The three switches of the Visual Effects card, each as the control
    event it raises for a given [checked]. *)
Definition effect_switches : list (bool → control) :=
  [bw_effect; speed_effect; slow_effect].

(** What [/api/editor/presets] may answer: a Cinematic preset whose
    configuration lists two effects. *)
Definition two_effect_presets : value :=
  VObj {[ "presets" :=
            VObj {[ "cinematic" :=
                      VObj {[ "name" := VStr "Cinematic";
                              "config" :=
                                VObj {[ "effects" :=
                                          VObj {[ "list" := VArr [VStr "fade_in";
                                                                  VStr "fade_out"] ]} ]} ]} ]} ]}.

(** [effects.list] is absent or holds exactly one of the three
    identifiers. *)
Definition at_most_one_effect (s : state) : Prop :=
  effects_list s = VUndefined
  ∨ ∃ effect_id, effect_id ∈ effect_ids ∧ effects_list s = VArr [VStr effect_id].

(** Configurations the form controls can reach: an object that holds
    at most one effect. *)
Definition built_by_controls (s : state) : Prop :=
  (∃ m, editConfig s = VObj m) ∧ at_most_one_effect s.

(** The call sequence of the specification's example. *)
Definition example_edits : M state unit :=
  updateEditConfig "trim" "start" (VNum 0);;
  updateEditConfig "trim" "end" (VNum 10);;
  updateEditConfig "resize" "width" (VNum 1920);;
  updateEditConfig "resize" "height" (VNum 1080).

(** ** What the form renders from its state *)

(** [disabled={isEditing || !videoPath}] of the Apply Edits button *)
Definition save_disabled (p : props) (s : state) : bool :=
  isEditing s || negb (truthy (videoPath p)).

(** [{editConfig.volume?.factor || 1}], the volume shown in the audio tab *)
Definition shown_volume (s : state) : result value :=
  match get_prop (editConfig s) "volume" with
  | inl e => inl e
  | inr volume => inr (js_or (get_opt volume "factor") (VNum 1))
  end.

(** [Object.keys(editConfig).length > 0], whether the Current
    Configuration card is shown *)
Definition shows_configuration (s : state) : result bool :=
  match count_keys (editConfig s) with
  | inl e => inl e
  | inr n => inr (0 <? n)%nat
  end.

(** [editConfig[section]?.[key]], what the configuration holds for a
    parameter *)
Definition setting (section key : string) (s : state) : value :=
  get_opt (get_opt (editConfig s) section) key.

(** A click on Apply Edits: nothing when the button is disabled. *)
Definition click_save (p : props) (o : settled) : M state unit :=
  s ← gets id;
  if save_disabled p s then mret tt else saveEdits p o.

End VideoEditor.

(** * The generation form: [VideoGenerator.jsx] *)
Module VideoGenerator.

Record state : Type := {
  script : string;
  selectedStyle : string;
  duration : list Z;
  aspectRatio : string;
  isGenerating : bool;
  generatedVideo : value;
  styles : value;
  progress : Q;
  (** the timer behind [progressInterval] is installed and not cleared *)
  progressInterval : bool
}.

Definition initial : state :=
  {| script := ""; selectedStyle := "real"; duration := [5%Z];
     aspectRatio := "landscape"; isGenerating := false;
     generatedVideo := VNull; styles := VObj ∅; progress := 0;
     progressInterval := false |}.

Definition setIsGenerating (b : bool) : M state unit :=
  modify (λ s, {| script := script s; selectedStyle := selectedStyle s;
                  duration := duration s; aspectRatio := aspectRatio s;
                  isGenerating := b; generatedVideo := generatedVideo s;
                  styles := styles s; progress := progress s;
                  progressInterval := progressInterval s |}).

Definition setGeneratedVideo (v : value) : M state unit :=
  modify (λ s, {| script := script s; selectedStyle := selectedStyle s;
                  duration := duration s; aspectRatio := aspectRatio s;
                  isGenerating := isGenerating s; generatedVideo := v;
                  styles := styles s; progress := progress s;
                  progressInterval := progressInterval s |}).

Definition setProgress (q : Q) : M state unit :=
  modify (λ s, {| script := script s; selectedStyle := selectedStyle s;
                  duration := duration s; aspectRatio := aspectRatio s;
                  isGenerating := isGenerating s; generatedVideo := generatedVideo s;
                  styles := styles s; progress := q;
                  progressInterval := progressInterval s |}).

Definition setInterval (ms : Z) : M state unit :=
  emit (SetInterval ms);;
  modify (λ s, {| script := script s; selectedStyle := selectedStyle s;
                  duration := duration s; aspectRatio := aspectRatio s;
                  isGenerating := isGenerating s; generatedVideo := generatedVideo s;
                  styles := styles s; progress := progress s;
                  progressInterval := true |}).

Definition clearInterval : M state unit :=
  emit ClearInterval;;
  modify (λ s, {| script := script s; selectedStyle := selectedStyle s;
                  duration := duration s; aspectRatio := aspectRatio s;
                  isGenerating := isGenerating s; generatedVideo := generatedVideo s;
                  styles := styles s; progress := progress s;
                  progressInterval := false |}).

(** The interval callback, [random] being what [Math.random()] returns:
    [setProgress(prev => { if (prev >= 90) { clearInterval(..); return 90; }
                           return prev + Math.random() * 10; })].
    Progress is computed in exact rational arithmetic. *)
Definition progress_tick (random : Q) : M state unit :=
  prev ← gets progress;
  if Qle_bool 90 prev then
    clearInterval;;
    setProgress 90
  else setProgress (prev + random * 10).

(** The timer fires only while it is installed. *)
Definition interval_fires (random : Q) : M state unit :=
  live ← gets progressInterval;
  if live : bool then progress_tick random else mret tt.

Fixpoint ticks (randoms : list Q) : M state unit :=
  match randoms with
  | [] => mret tt
  | r :: rest => interval_fires r;; ticks rest
  end.

(** What [Math.random()] can return. *)
Definition unit_interval (r : Q) : Prop := (0 <= r ∧ r < 1)%Q.


(** Progress is under way and short of completion. *)
Definition below_completion (s : state) : Prop :=
  (0 <= progress s ∧ progress s < 100)%Q.

(** [duration[0]] *)
Definition first_duration (d : list Z) : value :=
  match d with
  | [] => VUndefined
  | x :: _ => VNum x
  end.

Definition generateVideo_begin : M state bool :=
  s ← gets id;
  if negb (truthy (VStr (trim (script s)))) then
    emit (Alert "Please enter a script");;
    mret false
  else
    setIsGenerating true;;
    setProgress 0;;
    setInterval 500;;
    emit (Fetch "/api/video/generate"
            (post_json (VObj {[ "script" := VStr (script s);
                                "style" := VStr (selectedStyle s);
                                "duration" := first_duration (duration s);
                                "aspect_ratio" := VStr (aspectRatio s) ]})));;
    mret true.

Definition generateVideo_settle (o : settled) : M state unit :=
  try_finally
    (try_catch
       ('(ok, data) ← await_response o;
        if ok : bool then
          setGeneratedVideo data;;
          setProgress 100
        else
          err ← lift (get_prop data "error");
          throw (new_Error (js_or err (VStr "Failed to generate video"))))
       (λ error,
          emit (ConsoleError "Error generating video:" error);;
          emit (Alert ("Error generating video: " ++ message error))))
    (clearInterval;;
     setIsGenerating false).

(** One call of [generateVideo]: the timer fires once per element of
    [randoms] before the request settles as [o]. *)
Definition generateVideo (randoms : list Q) (o : settled) : M state unit :=
  sent ← generateVideo_begin;
  if sent : bool then
    ticks randoms;;
    generateVideo_settle o
  else mret tt.

(** ** The rest of the form *)

Definition setScript (text : string) : M state unit :=
  modify (λ s, {| script := text; selectedStyle := selectedStyle s;
                  duration := duration s; aspectRatio := aspectRatio s;
                  isGenerating := isGenerating s; generatedVideo := generatedVideo s;
                  styles := styles s; progress := progress s;
                  progressInterval := progressInterval s |}).

Definition setStyles (v : value) : M state unit :=
  modify (λ s, {| script := script s; selectedStyle := selectedStyle s;
                  duration := duration s; aspectRatio := aspectRatio s;
                  isGenerating := isGenerating s; generatedVideo := generatedVideo s;
                  styles := v; progress := progress s;
                  progressInterval := progressInterval s |}).

(** [fetchStyles], called once on mount, up to its await and from it. *)
Definition fetchStyles_begin : M state unit :=
  emit (Fetch "/api/styles/list" None).

Definition fetchStyles_settle (o : settled) : M state unit :=
  try_catch
    ('(_, data) ← await_response o;
     listed ← lift (get_prop data "styles");
     setStyles (js_or listed (VObj ∅)))
    (λ error, emit (ConsoleError "Error fetching styles:" error)).

Definition fetchStyles (o : settled) : M state unit :=
  fetchStyles_begin;;
  fetchStyles_settle o.

(** [Object.entries(styles)] in the style select: the number of options,
    or the TypeError that stops the render. *)
Definition style_options (s : state) : result nat := count_keys (styles s).

(** [disabled={isGenerating || !script.trim()}] of the Generate button *)
Definition generate_disabled (s : state) : bool :=
  isGenerating s || negb (truthy (VStr (trim (script s)))).

(** A click on Generate Video: nothing when the button is disabled. *)
Definition click_generate (randoms : list Q) (o : settled) : M state unit :=
  s ← gets id;
  if generate_disabled s then mret tt else generateVideo randoms o.

(** The text under the progress bar:
    [progress < 30 ? 'Processing script...' : progress < 60 ? 'Generating video...'
     : progress < 90 ? 'Applying style...' : 'Finalizing...'] *)
Definition progress_label (q : Q) : string :=
  if negb (Qle_bool 30 q) then "Processing script..."
  else if negb (Qle_bool 60 q) then "Generating video..."
  else if negb (Qle_bool 90 q) then "Applying style..."
  else "Finalizing...".

(** The labels in the order the source lists them, and the place of a
    label in that order. *)
Definition progress_labels : list string :=
  ["Processing script..."; "Generating video..."; "Applying style..."; "Finalizing..."].

Fixpoint place_in (labels : list string) (label : string) : nat :=
  match labels with
  | [] => 0
  | l :: rest => if l =? label then 0 else S (place_in rest label)
  end.

Definition label_place (q : Q) : nat := place_in progress_labels (progress_label q).

(** The request of [generateVideo]: the script goes out as typed. *)
Definition generate_request (s : state) : effect :=
  Fetch "/api/video/generate"
    (post_json (VObj {[ "script" := VStr (script s);
                        "style" := VStr (selectedStyle s);
                        "duration" := first_duration (duration s);
                        "aspect_ratio" := VStr (aspectRatio s) ]})).

(** A byte that is a visible ASCII character, [!] to [~]. *)
Definition visible_ascii (a : ascii) : bool :=
  ((33 <=? nat_of_ascii a) && (nat_of_ascii a <=? 126))%nat.

End VideoGenerator.

(** * The cloud panel: [AzureIntegration.jsx] *)
Module AzureIntegration.

Record state : Type := {
  azureStatus : value;
  uploadStatus : value;
  streamingInfo : value;
  videoAnalysis : value;
  isUploading : bool;
  isAnalyzing : bool
}.

Record props : Type := { videoPath : value }.

(** six times [useState(null)] or [useState(false)] *)
Definition initial : state :=
  {| azureStatus := VNull; uploadStatus := VNull; streamingInfo := VNull;
     videoAnalysis := VNull; isUploading := false; isAnalyzing := false |}.

Definition setAzureStatus (v : value) : M state unit :=
  modify (λ s, {| azureStatus := v; uploadStatus := uploadStatus s;
                  streamingInfo := streamingInfo s; videoAnalysis := videoAnalysis s;
                  isUploading := isUploading s; isAnalyzing := isAnalyzing s |}).

Definition setUploadStatus (v : value) : M state unit :=
  modify (λ s, {| azureStatus := azureStatus s; uploadStatus := v;
                  streamingInfo := streamingInfo s; videoAnalysis := videoAnalysis s;
                  isUploading := isUploading s; isAnalyzing := isAnalyzing s |}).

Definition setStreamingInfo (v : value) : M state unit :=
  modify (λ s, {| azureStatus := azureStatus s; uploadStatus := uploadStatus s;
                  streamingInfo := v; videoAnalysis := videoAnalysis s;
                  isUploading := isUploading s; isAnalyzing := isAnalyzing s |}).

Definition setVideoAnalysis (v : value) : M state unit :=
  modify (λ s, {| azureStatus := azureStatus s; uploadStatus := uploadStatus s;
                  streamingInfo := streamingInfo s; videoAnalysis := v;
                  isUploading := isUploading s; isAnalyzing := isAnalyzing s |}).

Definition setIsUploading (b : bool) : M state unit :=
  modify (λ s, {| azureStatus := azureStatus s; uploadStatus := uploadStatus s;
                  streamingInfo := streamingInfo s; videoAnalysis := videoAnalysis s;
                  isUploading := b; isAnalyzing := isAnalyzing s |}).

Definition setIsAnalyzing (b : bool) : M state unit :=
  modify (λ s, {| azureStatus := azureStatus s; uploadStatus := uploadStatus s;
                  streamingInfo := streamingInfo s; videoAnalysis := videoAnalysis s;
                  isUploading := isUploading s; isAnalyzing := b |}).

(** [v === 'text'] *)
Definition is_string (v : value) (text : string) : bool :=
  match v with
  | VStr s => s =? text
  | _ => false
  end.

Definition checkAzureStatus_begin : M state unit :=
  emit (Fetch "/api/azure/status" None).

Definition checkAzureStatus_settle (o : settled) : M state unit :=
  try_catch
    ('(_, data) ← await_response o;
     setAzureStatus data)
    (λ error, emit (ConsoleError "Error checking Azure status:" error)).

Definition createStreamingEndpoints_begin (videoUrl : value) : M state unit :=
  emit (Fetch "/api/azure/stream" (post_json (VObj {[ "video_url" := videoUrl ]}))).

Definition createStreamingEndpoints_settle (o : settled) : M state unit :=
  try_catch
    ('(ok, data) ← await_response o;
     if ok : bool then
       streaming ← lift (get_prop data "streaming");
       setStreamingInfo streaming
     else mret tt)
    (λ error, emit (ConsoleError "Error creating streaming endpoints:" error)).

Definition uploadToAzure_begin (p : props) : M state bool :=
  if negb (truthy (videoPath p)) then
    emit (Alert "No video selected for upload");;
    mret false
  else
    setIsUploading true;;
    emit (Fetch "/api/azure/upload"
            (post_json (VObj {[ "video_path" := videoPath p;
                                "container_name" := VStr "generated-videos" ]})));;
    mret true.

(** On an ok response the streaming call is started and not awaited:
    only its part up to the fetch runs here. *)
Definition uploadToAzure_settle (o : settled) : M state unit :=
  try_finally
    (try_catch
       ('(ok, data) ← await_response o;
        if ok : bool then
          setUploadStatus data;;
          blob_url ← lift (get_prop data "blob_url");
          createStreamingEndpoints_begin blob_url
        else
          err ← lift (get_prop data "error");
          throw (new_Error (js_or err (VStr "Failed to upload to Azure"))))
       (λ error,
          emit (ConsoleError "Error uploading to Azure:" error);;
          emit (Alert ("Error uploading to Azure: " ++ message error))))
    (setIsUploading false).

(** One upload, nothing else running in between. *)
Definition uploadToAzure (p : props) (o : settled) : M state unit :=
  sent ← uploadToAzure_begin p;
  if sent : bool then uploadToAzure_settle o else mret tt.

Definition analyzeVideo_begin : M state bool :=
  status ← gets uploadStatus;
  if negb (truthy (get_opt status "blob_url")) then
    emit (Alert "Please upload video to Azure first");;
    mret false
  else
    setIsAnalyzing true;;
    (* [uploadStatus.blob_url]: just found truthy, the read cannot throw *)
    emit (Fetch "/api/azure/analyze"
            (post_json (VObj {[ "video_url" := get_opt status "blob_url" ]})));;
    mret true.

Definition analyzeVideo_settle (o : settled) : M state unit :=
  try_finally
    (try_catch
       ('(ok, data) ← await_response o;
        if ok : bool then
          analysis ← lift (get_prop data "analysis");
          setVideoAnalysis analysis
        else
          err ← lift (get_prop data "error");
          throw (new_Error (js_or err (VStr "Failed to analyze video"))))
       (λ error,
          emit (ConsoleError "Error analyzing video:" error);;
          emit (Alert ("Error analyzing video: " ++ message error))))
    (setIsAnalyzing false).

Definition runCompleteWorkflow_begin (p : props) : M state bool :=
  if negb (truthy (videoPath p)) then
    emit (Alert "No video selected");;
    mret false
  else
    setIsUploading true;;
    emit (Fetch "/api/azure/workflow"
            (post_json (VObj {[ "video_path" := videoPath p ]})));;
    mret true.

(** [workflow.part?.status === 'success'] *)
Definition part_succeeded (workflow : value) (part : string) : M state bool :=
  x ← lift (get_prop workflow part);
  mret (is_string (get_opt x "status") "success").

Definition runCompleteWorkflow_settle (o : settled) : M state unit :=
  try_finally
    (try_catch
       ('(ok, data) ← await_response o;
        if ok : bool then
          workflow ← lift (get_prop data "workflow");
          up ← part_succeeded workflow "upload";
          (if up : bool then
             upload ← lift (get_prop workflow "upload");
             blob_url ← lift (get_prop upload "blob_url");
             setUploadStatus (VObj {[ "blob_url" := blob_url;
                                      "status" := VStr "uploaded" ]})
           else mret tt);;
          str ← part_succeeded workflow "streaming";
          (if str : bool then
             streaming ← lift (get_prop workflow "streaming");
             endpoints ← lift (get_prop streaming "endpoints");
             setStreamingInfo endpoints
           else mret tt);;
          ana ← part_succeeded workflow "analysis";
          (if ana : bool then
             analysis ← lift (get_prop workflow "analysis");
             insights ← lift (get_prop analysis "insights");
             setVideoAnalysis insights
           else mret tt)
        else
          err ← lift (get_prop data "error");
          throw (new_Error (js_or err (VStr "Workflow failed"))))
       (λ error,
          emit (ConsoleError "Error running workflow:" error);;
          emit (Alert ("Error running workflow: " ++ message error))))
    (setIsUploading false).

(** ** The mounted panel

    Between a click and the settling of its request other clicks and
    other settlings may come.  The panel keeps, besides the state cells
    and the current props, the async functions suspended at their
    await, oldest first. *)
Inductive suspended : Type :=
  | in_checkAzureStatus
  | in_uploadToAzure
  | in_createStreamingEndpoints
  | in_analyzeVideo
  | in_runCompleteWorkflow.

Record panel : Type := {
  cells : state;
  given : props;
  in_flight : list suspended
}.

(** Which function issued a request, told from the endpoint. *)
Definition issuer (e : effect) : option suspended :=
  match e with
  | Fetch url _ =>
      if url =? "/api/azure/status" then Some in_checkAzureStatus
      else if url =? "/api/azure/upload" then Some in_uploadToAzure
      else if url =? "/api/azure/stream" then Some in_createStreamingEndpoints
      else if url =? "/api/azure/analyze" then Some in_analyzeVideo
      else if url =? "/api/azure/workflow" then Some in_runCompleteWorkflow
      else None
  | _ => None
  end.

(** Run a handler on the panel: new cells, and every request it sent
    joins the in-flight ones. *)
Definition perform {A : Type} (h : M state A) (w : panel) : panel :=
  let r := h (cells w) in
  {| cells := state_of r;
     given := given w;
     in_flight := (in_flight w ++ omap issuer (effects_of r))%list |}.

(** The [disabled] attributes of the three action buttons. *)
Definition upload_disabled (w : panel) : bool :=
  isUploading (cells w)
  || negb (truthy (videoPath (given w)))
  || negb (truthy (get_opt (azureStatus (cells w)) "configured")).

Definition analyze_disabled (w : panel) : bool :=
  isAnalyzing (cells w)
  || negb (truthy (get_opt (uploadStatus (cells w)) "blob_url")).

Definition workflow_disabled (w : panel) : bool :=
  isUploading (cells w)
  || negb (truthy (videoPath (given w)))
  || negb (truthy (get_opt (azureStatus (cells w)) "configured")).

Definition resume (f : suspended) (o : settled) : M state unit :=
  match f with
  | in_checkAzureStatus => checkAzureStatus_settle o
  | in_uploadToAzure => uploadToAzure_settle o
  | in_createStreamingEndpoints => createStreamingEndpoints_settle o
  | in_analyzeVideo => analyzeVideo_settle o
  | in_runCompleteWorkflow => runCompleteWorkflow_settle o
  end.

Inductive event : Type :=
  | click_upload
  | click_analyze
  | click_workflow
  (** the [i]-th in-flight request settles as [o] *)
  | settles (i : nat) (o : settled)
  (** the parent renders the panel with another [videoPath] *)
  | rendered_with (p : props).

Definition step (w : panel) (ev : event) : panel :=
  match ev with
  | click_upload =>
      if upload_disabled w then w else perform (uploadToAzure_begin (given w)) w
  | click_analyze =>
      if analyze_disabled w then w else perform analyzeVideo_begin w
  | click_workflow =>
      if workflow_disabled w then w else perform (runCompleteWorkflow_begin (given w)) w
  | settles i o =>
      match in_flight w !! i with
      | None => w
      | Some f =>
          perform (resume f o)
            {| cells := cells w; given := given w;
               in_flight := delete i (in_flight w) |}
      end
  | rendered_with p =>
      {| cells := cells w; given := p; in_flight := in_flight w |}
  end.

(** [useEffect(() => { checkAzureStatus(); }, [])] on mount *)
Definition mounted (p : props) : panel :=
  perform checkAzureStatus_begin
    {| cells := initial; given := p; in_flight := [] |}.

Definition run (p : props) (evs : list event) : panel :=
  fold_left step evs (mounted p).

(** How many in-flight requests were started under the [isUploading]
    flag, and how many under [isAnalyzing]. *)
Definition under_isUploading (f : suspended) : bool :=
  match f with
  | in_uploadToAzure | in_runCompleteWorkflow => true
  | _ => false
  end.

Definition under_isAnalyzing (f : suspended) : bool :=
  match f with
  | in_analyzeVideo => true
  | _ => false
  end.


(** The two busy flags are as before. *)
Definition same_flags (s s' : state) : Prop :=
  isUploading s' = isUploading s ∧ isAnalyzing s' = isAnalyzing s.



(** The panel has at most one request in flight. *)
Definition at_most_one_in_flight (w : panel) : Prop :=
  (length (in_flight w) ≤ 1)%nat.

(** A session: the status arrives, the video is uploaded, the
    streaming endpoints arrive, then the user clicks Analyze and, while
    the analysis is out, Upload again. *)
Definition analyze_then_upload : list event :=
  [ settles 0 (Resolved true (inr (VObj {[ "configured" := VBool true ]})));
    click_upload;
    settles 0 (Resolved true (inr (VObj {[ "blob_url" := VStr "https://blob/a.mp4" ]})));
    settles 0 (Resolved true
                 (inr (VObj {[ "streaming" :=
                                 VObj {[ "streaming_urls" := VObj ∅ ]} ]})));
    click_analyze;
    click_upload ].

(** ** Whole calls and their requests *)

(** One [analyzeVideo], nothing else running in between. *)
Definition analyzeVideo (o : settled) : M state unit :=
  sent ← analyzeVideo_begin;
  if sent : bool then analyzeVideo_settle o else mret tt.

(** One [runCompleteWorkflow], nothing else running in between. *)
Definition runCompleteWorkflow (p : props) (o : settled) : M state unit :=
  sent ← runCompleteWorkflow_begin p;
  if sent : bool then runCompleteWorkflow_settle o else mret tt.

Definition upload_request (p : props) : effect :=
  Fetch "/api/azure/upload"
    (post_json (VObj {[ "video_path" := videoPath p;
                        "container_name" := VStr "generated-videos" ]})).

Definition stream_request (videoUrl : value) : effect :=
  Fetch "/api/azure/stream" (post_json (VObj {[ "video_url" := videoUrl ]})).

Definition analyze_request (videoUrl : value) : effect :=
  Fetch "/api/azure/analyze" (post_json (VObj {[ "video_url" := videoUrl ]})).

Definition workflow_request (p : props) : effect :=
  Fetch "/api/azure/workflow" (post_json (VObj {[ "video_path" := videoPath p ]})).

(** One [createStreamingEndpoints(videoUrl)], nothing else running in
    between. *)
Definition createStreamingEndpoints (videoUrl : value) (o : settled) : M state unit :=
  createStreamingEndpoints_begin videoUrl;;
  createStreamingEndpoints_settle o.

(** [workflow[part]?.status === 'success'], read without the throw *)
Definition part_ok (workflow : value) (part : string) : bool :=
  is_string (get_opt (get_opt workflow part) "status") "success".

(** What the workflow response stores, part by part. *)
Definition stored_by_workflow (workflow : value) (s : state) : state :=
  {| azureStatus := azureStatus s;
     uploadStatus :=
       if part_ok workflow "upload" then
         VObj {[ "blob_url" := get_opt (get_opt workflow "upload") "blob_url";
                 "status" := VStr "uploaded" ]}
       else uploadStatus s;
     streamingInfo :=
       if part_ok workflow "streaming" then get_opt (get_opt workflow "streaming") "endpoints"
       else streamingInfo s;
     videoAnalysis :=
       if part_ok workflow "analysis" then get_opt (get_opt workflow "analysis") "insights"
       else videoAnalysis s;
     isUploading := false;
     isAnalyzing := isAnalyzing s |}.

(** [azureStatus] is as before. *)
Definition same_status (s s' : state) : Prop := azureStatus s' = azureStatus s.

(** An effect that is not the status request. *)
Definition not_status_request (e : effect) : Prop :=
  issuer e ≠ Some in_checkAzureStatus.

(** What the panel is like as long as nothing but the status request has
    been sent: either that request is still out and the state is the
    initial one, or it has settled and, unless Azure was reported
    configured, nothing is stored and nothing is in flight. *)
Definition only_status_so_far (w : panel) : Prop :=
  (in_flight w = [in_checkAzureStatus] ∧ cells w = initial)
  ∨ ((in_checkAzureStatus ∉ in_flight w)
     ∧ (truthy (get_opt (azureStatus (cells w)) "configured") = true
        ∨ (uploadStatus (cells w) = VNull ∧ streamingInfo (cells w) = VNull
           ∧ videoAnalysis (cells w) = VNull
           ∧ isUploading (cells w) = false ∧ isAnalyzing (cells w) = false
           ∧ in_flight w = []))).

(** Nothing has been stored and no action is under way. *)
Definition untouched (s : state) : Prop :=
  uploadStatus s = VNull ∧ streamingInfo s = VNull ∧ videoAnalysis s = VNull
  ∧ isUploading s = false ∧ isAnalyzing s = false.

(** The backend has reported Azure as configured. *)
Definition configured (s : state) : bool :=
  truthy (get_opt (azureStatus s) "configured").

End AzureIntegration.

(** * Properties of the edit form *)

(** * The shell: [App.jsx]

    [App] keeps [currentVideoPath] and renders the three forms.  It hands
    [handleVideoGenerated] to the generation form as [onVideoGenerated],
    which that form, declared without parameters, never reads; it hands
    [currentVideoPath] and [handleVideoEdited] to the edit form, and
    [currentVideoPath] to the cloud panel. *)
Module App.

Record state : Type := {
  currentVideoPath : value;
  generator : VideoGenerator.state;
  (** the request of [fetchStyles] is still out *)
  awaiting_styles : bool;
  editor : VideoEditor.state;
  cloud : AzureIntegration.panel;
  (** what the generation and edit forms have done to the outside world,
      oldest first *)
  log : list effect
}.

(** [setCurrentVideoPath(videoData.video_path)] *)
Definition handleVideoGenerated (videoData : value) : M value unit :=
  path ← lift (get_prop videoData "video_path");
  modify (λ _, path).

(** [setCurrentVideoPath(editedVideoPath)] *)
Definition handleVideoEdited (editedVideoPath : value) : M value unit :=
  modify (λ _, editedVideoPath).

(** The props [App] renders the edit form and the cloud panel with. *)
Definition editor_props (a : state) : VideoEditor.props :=
  {| VideoEditor.videoPath := currentVideoPath a; VideoEditor.onSave := true |}.

Definition cloud_props (path : value) : AzureIntegration.props :=
  {| AzureIntegration.videoPath := path |}.

(** The calls of [onSave] among the effects of the edit form reach
    [handleVideoEdited], in order. *)
Definition deliver (effects : list effect) (path : value) : value :=
  fold_left
    (λ current e,
       match e with
       | OnSave arg => state_of (handleVideoEdited arg current)
       | _ => current
       end)
    effects path.

Inductive event : Type :=
  | script_typed (text : string)
  | styles_settled (o : settled)
  | generate_clicked (randoms : list Q) (o : settled)
  | control_used (c : VideoEditor.control)
  | preset_clicked (presetKey : string) (o : settled)
  | save_clicked (o : settled)
  | in_cloud (ev : AzureIntegration.event).

(** A form's handler has run: its new state and its effects. *)
Definition with_generator (a : state) (r : result unit * VideoGenerator.state * list effect)
    (awaiting : bool) : state :=
  {| currentVideoPath := currentVideoPath a;
     generator := state_of r;
     awaiting_styles := awaiting;
     editor := editor a;
     cloud := cloud a;
     log := (log a ++ effects_of r)%list |}.

Definition with_editor (a : state) (r : result unit * VideoEditor.state * list effect)
    : state :=
  let path := deliver (effects_of r) (currentVideoPath a) in
  {| currentVideoPath := path;
     generator := generator a;
     awaiting_styles := awaiting_styles a;
     editor := state_of r;
     cloud := AzureIntegration.step (cloud a) (AzureIntegration.rendered_with (cloud_props path));
     log := (log a ++ effects_of r)%list |}.

Definition with_cloud (a : state) (w : AzureIntegration.panel) : state :=
  {| currentVideoPath := currentVideoPath a;
     generator := generator a;
     awaiting_styles := awaiting_styles a;
     editor := editor a;
     cloud := w;
     log := log a |}.

(** One event.  A form's whole handler call is one event (an updater
    that throws leaves the state where it was); the cloud panel keeps its
    own clicks and settlings, and its props come from [App] alone. *)
Definition step (a : state) (ev : event) : state :=
  match ev with
  | script_typed text =>
      with_generator a (VideoGenerator.setScript text (generator a)) (awaiting_styles a)
  | styles_settled o =>
      if awaiting_styles a
      then with_generator a (VideoGenerator.fetchStyles_settle o (generator a)) false
      else a
  | generate_clicked randoms o =>
      with_generator a (VideoGenerator.click_generate randoms o (generator a))
        (awaiting_styles a)
  | control_used c => with_editor a (VideoEditor.handle c (editor a))
  | preset_clicked presetKey o =>
      with_editor a (VideoEditor.applyPreset presetKey o (editor a))
  | save_clicked o =>
      with_editor a (VideoEditor.click_save (editor_props a) o (editor a))
  | in_cloud (AzureIntegration.rendered_with _) => a
  | in_cloud ev => with_cloud a (AzureIntegration.step (cloud a) ev)
  end.

(** The first render: [useState(null)], the forms in their initial
    state, and the two requests sent on mount. *)
Definition mounted : state :=
  {| currentVideoPath := VNull;
     generator := VideoGenerator.initial;
     awaiting_styles := true;
     editor := VideoEditor.initial;
     cloud := AzureIntegration.mounted (cloud_props VNull);
     log := effects_of (VideoGenerator.fetchStyles_begin VideoGenerator.initial) |}.

Definition run (evs : list event) : state := fold_left step evs mounted.

(** The endpoints the forms have sent requests to. *)
Definition requested (a : state) : list string := omap fetched_url (log a).

(** No video has reached [App]: the path is still [null], the cloud
    panel is rendered with it and has stored no upload and sent nothing
    but its status request, and the forms have sent no edit request. *)
Definition no_video_yet (a : state) : Prop :=
  currentVideoPath a = VNull
  ∧ AzureIntegration.given (cloud a) = cloud_props VNull
  ∧ AzureIntegration.uploadStatus (AzureIntegration.cells (cloud a)) = VNull
  ∧ (AzureIntegration.in_flight (cloud a) = [AzureIntegration.in_checkAzureStatus]
     ∨ AzureIntegration.in_flight (cloud a) = [])
  ∧ Forall (λ url, url = "/api/styles/list" ∨ url = "/api/video/generate"
                   ∨ url = "/api/editor/presets") (requested a).

(** ** Preset requests in flight

    [applyPreset] waits for its fetch, and the four preset buttons carry
    no [disabled] attribute: between a click on one and the settling of
    its request anything may happen, further clicks on a preset included.
    The client below keeps, besides the state of [App], the keys of the
    [applyPreset] calls that are suspended at their await, oldest first. *)
Record client : Type := {
  at_rest : state;
  presets_in_flight : list string
}.

Inductive moment : Type :=
  (** an event of [step], its handler run to the end *)
  | whole (ev : event)
  (** a click on a preset button: [applyPreset] up to its await *)
  | preset_pressed (presetKey : string)
  (** the [i]-th outstanding presets request settles as [o] *)
  | preset_settles (i : nat) (o : settled).

Definition live_step (c : client) (mo : moment) : client :=
  match mo with
  | whole ev =>
      {| at_rest := step (at_rest c) ev; presets_in_flight := presets_in_flight c |}
  | preset_pressed presetKey =>
      {| at_rest := with_editor (at_rest c)
                      (VideoEditor.applyPreset_begin (editor (at_rest c)));
         presets_in_flight := (presets_in_flight c ++ [presetKey])%list |}
  | preset_settles i o =>
      match presets_in_flight c !! i with
      | None => c
      | Some presetKey =>
          {| at_rest := with_editor (at_rest c)
                          (VideoEditor.applyPreset_settle presetKey o (editor (at_rest c)));
             presets_in_flight := delete i (presets_in_flight c) |}
      end
  end.




End App.

Ltac run_handler :=
  cbv beta iota delta
    [mbind mret handler_bind handler_ret bind ret throw lift emit gets modify
     try_catch try_finally await_response state_of effects_of outcome_of fst snd].

Import VideoEditor.

Lemma get_prop_object (m : gmap string value) (k : string) :
  get_prop (VObj m) k = inr (default VUndefined (m !! k)).
Proof. unfold get_prop; simpl. by destruct (m !! k). Qed.

Lemma merged_object (m : gmap string value) (section key : string) (v : value) :
  merged section key v (VObj m)
  = inr (VObj (<[section := VObj (<[key := v]> (own_props (default VUndefined (m !! section))))]> m)).
Proof. unfold merged. by rewrite get_prop_object. Qed.

Lemma updateEditConfig_object (m : gmap string value) (sp : string) (ie : bool)
    (section key : string) (v : value) :
  updateEditConfig section key v
    {| editConfig := VObj m; selectedPreset := sp; isEditing := ie |}
  = (inr tt,
     {| editConfig :=
          VObj (<[section := VObj (<[key := v]> (own_props (default VUndefined (m !! section))))]> m);
        selectedPreset := sp; isEditing := ie |},
     []).
Proof.
  cbv [updateEditConfig mbind handler_bind bind gets lift setEditConfig modify editConfig].
  by rewrite merged_object.
Qed.

(** Spreading an array copies its indexed elements, and an update on a
    configuration that is [undefined] (a preset without [config] was
    applied) throws inside the updater. *)
Example merged_spreads_array :
  merged "effects" "list" (VArr [VStr "speed_up"])
    (VObj {[ "effects" := VArr [VStr "fade_in"] ]})
  = inr (VObj {[ "effects" := VObj {[ "0" := VStr "fade_in";
                                      "list" := VArr [VStr "speed_up"] ]} ]}).
Proof. vm_compute. reflexivity. Qed.

Example merged_on_undefined_throws :
  merged "trim" "start" (VNum 0) VUndefined
  = inl {| name := "TypeError";
           message := "Cannot read properties of undefined (reading 'trim')" |}.
Proof. reflexivity. Qed.

Example JSON_stringify_drops_undefined :
  JSON_stringify (VObj {[ "video_url" := VUndefined; "tags" := VArr [VUndefined; VNaN] ]})
  = VObj {[ "tags" := VArr [VNull; VNull] ]}.
Proof. vm_compute. reflexivity. Qed.

(** [reset()] empties the configuration whatever it was. *)
Lemma reset_empties (s : state) :
  reset s
  = (inr tt,
     {| editConfig := VObj ∅; selectedPreset := selectedPreset s; isEditing := isEditing s |},
     []).
Proof. reflexivity. Qed.

(** C3. [set(s, k, v)] on a configuration [c]: every category other than
    [s] keeps its sub-map, the sub-map of [s] is the former one with [k]
    mapped to [v] and its other keys kept, and [v] is stored as it comes,
    whatever its range. *)
Theorem updateEditConfig_merges_one_category
    (m : gmap string value) (sp : string) (ie : bool) (s k : string) (v : value) :
  ∃ m' sub' : gmap string value,
    updateEditConfig s k v {| editConfig := VObj m; selectedPreset := sp; isEditing := ie |}
    = (inr tt, {| editConfig := VObj m'; selectedPreset := sp; isEditing := ie |}, [])
    ∧ (∀ s', s' ≠ s → m' !! s' = m !! s')
    ∧ m' !! s = Some (VObj sub')
    ∧ sub' !! k = Some v
    ∧ (∀ k', k' ≠ k → sub' !! k' = own_props (default VUndefined (m !! s)) !! k').
Proof.
  eexists _, _. split; [apply updateEditConfig_object |].
  split; [intros s' Hs'; by rewrite lookup_insert_ne |].
  split; [by rewrite lookup_insert_eq |].
  split; [by rewrite lookup_insert_eq |].
  intros k' Hk'. by rewrite lookup_insert_ne.
Qed.

(** C3 on a configuration like the specification's example: a negative
    trim start is stored as it comes, [end] and [resize] stay. *)
Lemma updateEditConfig_merges_one_category_witness :
  ∃ m' sub' : gmap string value,
    updateEditConfig "trim" "start" (VNum (-5))
      {| editConfig :=
           VObj {[ "trim" := VObj {[ "start" := VNum 0; "end" := VNum 10 ]};
                   "resize" := VObj {[ "width" := VNum 1920 ]} ]};
         selectedPreset := ""; isEditing := false |}
    = (inr tt, {| editConfig := VObj m'; selectedPreset := ""; isEditing := false |}, [])
    ∧ m' !! "resize" = Some (VObj {[ "width" := VNum 1920 ]})
    ∧ m' !! "trim" = Some (VObj sub')
    ∧ sub' !! "start" = Some (VNum (-5))
    ∧ sub' !! "end" = Some (VNum 10).
Proof.
  destruct (updateEditConfig_merges_one_category
              {[ "trim" := VObj {[ "start" := VNum 0; "end" := VNum 10 ]};
                 "resize" := VObj {[ "width" := VNum 1920 ]} ]}
              "" false "trim" "start" (VNum (-5)))
    as (m' & sub' & Hrun & Hothers & Htrim & Hstart & Hkept).
  exists m', sub'. split; [exact Hrun |].
  split; [rewrite (Hothers "resize") by discriminate; reflexivity |].
  split; [exact Htrim |]. split; [exact Hstart |].
  rewrite (Hkept "end") by discriminate. reflexivity.
Defined.

(** C4. Repeating a [set] with the same arguments changes nothing more,
    and two [set]s on distinct categories give the same configuration in
    either order. *)
Theorem updateEditConfig_idempotent_commutative
    (m : gmap string value) (sp : string) (ie : bool)
    (s1 k1 : string) (v1 : value) (s2 k2 : string) (v2 : value)
    (Hdistinct : s1 ≠ s2) :
  let c := {| editConfig := VObj m; selectedPreset := sp; isEditing := ie |} in
  (updateEditConfig s1 k1 v1;; updateEditConfig s1 k1 v1) c = updateEditConfig s1 k1 v1 c
  ∧ (updateEditConfig s1 k1 v1;; updateEditConfig s2 k2 v2) c
    = (updateEditConfig s2 k2 v2;; updateEditConfig s1 k1 v1) c.
Proof.
  intros c. subst c. cbv beta delta [mbind handler_bind bind].
  rewrite !updateEditConfig_object. cbn [app].
  rewrite lookup_insert_eq. cbn [default from_option id own_props].
  rewrite !insert_insert_eq.
  rewrite (lookup_insert_ne _ s1 s2) by done.
  rewrite (lookup_insert_ne _ s2 s1) by done.
  split; [done |].
  by rewrite (insert_insert_ne _ s1 s2).
Qed.

Lemma updateEditConfig_idempotent_commutative_witness :
  let c := initial in
  (updateEditConfig "trim" "start" (VNum 0);; updateEditConfig "trim" "start" (VNum 0)) c
  = updateEditConfig "trim" "start" (VNum 0) c
  ∧ (updateEditConfig "trim" "start" (VNum 0);; updateEditConfig "resize" "width" (VNum 1920)) c
    = (updateEditConfig "resize" "width" (VNum 1920);; updateEditConfig "trim" "start" (VNum 0)) c.
Proof.
  apply (updateEditConfig_idempotent_commutative ∅ "" false
           "trim" "start" (VNum 0) "resize" "width" (VNum 1920)).
  discriminate.
Defined.

Lemma saveEdits_begin_sends (p : props) (s : state) :
  truthy (videoPath p) = true →
  saveEdits_begin p s
  = (inr true,
     {| editConfig := editConfig s; selectedPreset := selectedPreset s; isEditing := true |},
     [edit_request (videoPath p) (editConfig s)]).
Proof.
  intros Hp. unfold saveEdits_begin. rewrite Hp. reflexivity.
Qed.

Lemma saveEdits_settle_failed (p : props) (s : state) (o : settled) :
  failed o = true →
  saveEdits_settle p o s
  = (inr tt,
     {| editConfig := editConfig s; selectedPreset := selectedPreset s; isEditing := false |},
     [ConsoleError "Error editing video:" (caught "Failed to edit video" o);
      Alert ("Error editing video: " ++ message (caught "Failed to edit video" o))]).
Proof.
  intros Hf. destruct o as [e | ok [e | data]]; simpl in Hf; try reflexivity.
  destruct ok; [discriminate |].
  unfold saveEdits_settle, caught. run_handler.
  destruct (get_prop data "error"); reflexivity.
Qed.

Lemma saveEdits_settle_ok (p : props) (s : state) (data : value) :
  nullish data = false → onSave p = true →
  saveEdits_settle p (Resolved true (inr data)) s
  = (inr tt,
     {| editConfig := editConfig s; selectedPreset := selectedPreset s; isEditing := false |},
     [OnSave (get_opt data "edited_path"); Alert "Video edited successfully!"]).
Proof.
  intros Hd Hcb. unfold saveEdits_settle, get_opt. run_handler. rewrite Hcb.
  destruct data; try discriminate; reflexivity.
Qed.

Lemma saveEdits_failed (p : props) (s : state) (o : settled) :
  truthy (videoPath p) = true → failed o = true →
  saveEdits p o s
  = (inr tt,
     {| editConfig := editConfig s; selectedPreset := selectedPreset s; isEditing := false |},
     [edit_request (videoPath p) (editConfig s);
      ConsoleError "Error editing video:" (caught "Failed to edit video" o);
      Alert ("Error editing video: " ++ message (caught "Failed to edit video" o))]).
Proof.
  intros Hp Hf. unfold saveEdits. cbv beta delta [mbind handler_bind bind].
  rewrite saveEdits_begin_sends by done. cbv beta iota.
  by rewrite saveEdits_settle_failed.
Qed.

Lemma saveEdits_ok (p : props) (s : state) (data : value) :
  truthy (videoPath p) = true → nullish data = false → onSave p = true →
  saveEdits p (Resolved true (inr data)) s
  = (inr tt,
     {| editConfig := editConfig s; selectedPreset := selectedPreset s; isEditing := false |},
     [edit_request (videoPath p) (editConfig s);
      OnSave (get_opt data "edited_path");
      Alert "Video edited successfully!"]).
Proof.
  intros Hp Hd Hcb. unfold saveEdits. cbv beta delta [mbind handler_bind bind].
  rewrite saveEdits_begin_sends by done. cbv beta iota.
  by rewrite saveEdits_settle_ok.
Qed.

Lemma saveEdits_ok_unreadable (p : props) (s : state) (data : value) :
  truthy (videoPath p) = true → nullish data = true → onSave p = true →
  saveEdits p (Resolved true (inr data)) s
  = (inr tt,
     {| editConfig := editConfig s; selectedPreset := selectedPreset s; isEditing := false |},
     [edit_request (videoPath p) (editConfig s);
      ConsoleError "Error editing video:" (read_of_nullish data "edited_path");
      Alert ("Error editing video: " ++ message (read_of_nullish data "edited_path"))]).
Proof.
  intros Hp Hd Hcb. unfold saveEdits. cbv beta delta [mbind handler_bind bind].
  rewrite saveEdits_begin_sends by done. cbv beta iota.
  unfold saveEdits_settle. run_handler. rewrite Hcb.
  destruct data; try discriminate; reflexivity.
Qed.

Lemma saveEdits_ok_unheard (p : props) (s : state) (data : value) :
  truthy (videoPath p) = true → onSave p = false →
  saveEdits p (Resolved true (inr data)) s
  = (inr tt,
     {| editConfig := editConfig s; selectedPreset := selectedPreset s; isEditing := false |},
     [edit_request (videoPath p) (editConfig s); Alert "Video edited successfully!"]).
Proof.
  intros Hp Hcb. unfold saveEdits. cbv beta delta [mbind handler_bind bind].
  rewrite saveEdits_begin_sends by done. cbv beta iota.
  unfold saveEdits_settle. run_handler. by rewrite Hcb.
Qed.

(** C6. Every way the request of [submit()] can settle is covered.  A
    failing one (the fetch rejects, the body does not parse, or the
    response is not ok) shows the error message in an alert, leaves the
    edit configuration and the selected preset as they were and does not
    call [onSave]; a successful one hands [data.edited_path] to [onSave].
    An ok response whose body is [null] returns no path: reading
    [data.edited_path] throws, and the catch block treats it as every
    other failure.  So [onSave] is called exactly when the response is
    ok, its body can be read and a callback was given, and what it gets
    is the body's [edited_path]; and in no case is the configuration or
    the selected preset changed. *)
Theorem saveEdits_alerts_on_failure_forwards_on_success
    (p : props) (s : state) (o : settled)
    (Hpath : truthy (videoPath p) = true) :
  (failed o = true →
     saveEdits p o s
     = (inr tt,
        {| editConfig := editConfig s; selectedPreset := selectedPreset s;
           isEditing := false |},
        [edit_request (videoPath p) (editConfig s);
         ConsoleError "Error editing video:" (caught "Failed to edit video" o);
         Alert ("Error editing video: " ++ message (caught "Failed to edit video" o))]))
  ∧ (∀ data, o = Resolved true (inr data) → nullish data = false → onSave p = true →
     saveEdits p o s
     = (inr tt,
        {| editConfig := editConfig s; selectedPreset := selectedPreset s;
           isEditing := false |},
        [edit_request (videoPath p) (editConfig s);
         OnSave (get_opt data "edited_path");
         Alert "Video edited successfully!"]))
  ∧ (∀ data, o = Resolved true (inr data) → nullish data = true → onSave p = true →
     saveEdits p o s
     = (inr tt,
        {| editConfig := editConfig s; selectedPreset := selectedPreset s;
           isEditing := false |},
        [edit_request (videoPath p) (editConfig s);
         ConsoleError "Error editing video:" (read_of_nullish data "edited_path");
         Alert ("Error editing video: " ++ message (read_of_nullish data "edited_path"))]))
  ∧ (∀ data, o = Resolved true (inr data) → onSave p = false →
     saveEdits p o s
     = (inr tt,
        {| editConfig := editConfig s; selectedPreset := selectedPreset s;
           isEditing := false |},
        [edit_request (videoPath p) (editConfig s); Alert "Video edited successfully!"]))
  ∧ (∀ arg, OnSave arg ∈ effects_of (saveEdits p o s)
            ↔ onSave p = true
              ∧ ∃ data, o = Resolved true (inr data) ∧ nullish data = false
                        ∧ arg = get_opt data "edited_path")
  ∧ state_of (saveEdits p o s)
    = {| editConfig := editConfig s; selectedPreset := selectedPreset s;
         isEditing := false |}.
Proof.
  split; [intros Hf; by apply saveEdits_failed |].
  split; [intros data -> Hd Hcb; by apply saveEdits_ok |].
  split; [intros data -> Hd Hcb; by apply saveEdits_ok_unreadable |].
  split; [intros data -> Hcb; by apply saveEdits_ok_unheard |].
  destruct (failed o) eqn:Hf.
  { rewrite (saveEdits_failed p s o Hpath Hf). split; [| reflexivity].
    intros arg. split.
    - intros Hin. unfold effects_of, edit_request in Hin. cbn [snd] in Hin.
      repeat (apply elem_of_cons in Hin as [Hin | Hin]; [discriminate Hin |]).
      by apply elem_of_nil in Hin.
    - intros (_ & data & -> & _). discriminate Hf. }
  destruct o as [e | ok [e | data]]; try discriminate Hf.
  destruct ok; [| discriminate Hf].
  destruct (onSave p) eqn:Hcb; [destruct (nullish data) eqn:Hd |].
  - rewrite (saveEdits_ok_unreadable p s data Hpath Hd Hcb). split; [| reflexivity].
    intros arg. split.
    + intros Hin. unfold effects_of, edit_request in Hin. cbn [snd] in Hin.
      repeat (apply elem_of_cons in Hin as [Hin | Hin]; [discriminate Hin |]).
      by apply elem_of_nil in Hin.
    + intros (_ & data' & [= <-] & Hd' & _). congruence.
  - rewrite (saveEdits_ok p s data Hpath Hd Hcb). split; [| reflexivity].
    intros arg. split.
    + intros Hin. unfold effects_of, edit_request in Hin. cbn [snd] in Hin.
      apply elem_of_cons in Hin as [Hin | Hin]; [discriminate Hin |].
      apply elem_of_cons in Hin as [[= ->] | Hin]; [split; [done | by exists data] |].
      apply elem_of_cons in Hin as [Hin | Hin]; [discriminate Hin |].
      by apply elem_of_nil in Hin.
    + intros (_ & data' & [= <-] & _ & ->).
      unfold effects_of. cbn [snd]. apply elem_of_cons. right. apply elem_of_cons. by left.
  - rewrite (saveEdits_ok_unheard p s data Hpath Hcb). split; [| reflexivity].
    intros arg. split.
    + intros Hin. unfold effects_of, edit_request in Hin. cbn [snd] in Hin.
      repeat (apply elem_of_cons in Hin as [Hin | Hin]; [discriminate Hin |]).
      by apply elem_of_nil in Hin.
    + by intros (Hno & _).
Qed.

Lemma saveEdits_alerts_on_failure_forwards_on_success_witness :
  let p := {| videoPath := VStr "/videos/a.mp4"; onSave := true |} in
  saveEdits p (Resolved false (inr (VObj {[ "error" := VStr "No such file" ]}))) initial
  = (inr tt, initial,
     [edit_request (VStr "/videos/a.mp4") (VObj ∅);
      ConsoleError "Error editing video:" {| name := "Error"; message := "No such file" |};
      Alert "Error editing video: No such file"])
  ∧ saveEdits p (Resolved true (inr (VObj {[ "edited_path" := VStr "/videos/b.mp4" ]}))) initial
    = (inr tt, initial,
       [edit_request (VStr "/videos/a.mp4") (VObj ∅);
        OnSave (VStr "/videos/b.mp4");
        Alert "Video edited successfully!"])
  ∧ saveEdits p (Resolved true (inr VNull)) initial
    = (inr tt, initial,
       [edit_request (VStr "/videos/a.mp4") (VObj ∅);
        ConsoleError "Error editing video:"
          {| name := "TypeError";
             message := "Cannot read properties of null (reading 'edited_path')" |};
        Alert "Error editing video: Cannot read properties of null (reading 'edited_path')"])
  ∧ saveEdits {| videoPath := VStr "/videos/a.mp4"; onSave := false |}
      (Resolved true (inr VNull)) initial
    = (inr tt, initial,
       [edit_request (VStr "/videos/a.mp4") (VObj ∅); Alert "Video edited successfully!"]).
Proof.
  split; [| split; [| split]].
  - exact (proj1 (saveEdits_alerts_on_failure_forwards_on_success
             {| videoPath := VStr "/videos/a.mp4"; onSave := true |} initial
             (Resolved false (inr (VObj {[ "error" := VStr "No such file" ]})))
             eq_refl) eq_refl).
  - exact (proj1 (proj2 (saveEdits_alerts_on_failure_forwards_on_success
             {| videoPath := VStr "/videos/a.mp4"; onSave := true |} initial
             (Resolved true (inr (VObj {[ "edited_path" := VStr "/videos/b.mp4" ]})))
             eq_refl))
             (VObj {[ "edited_path" := VStr "/videos/b.mp4" ]}) eq_refl eq_refl eq_refl).
  - exact (proj1 (proj2 (proj2 (saveEdits_alerts_on_failure_forwards_on_success
             {| videoPath := VStr "/videos/a.mp4"; onSave := true |} initial
             (Resolved true (inr VNull)) eq_refl)))
             VNull eq_refl eq_refl eq_refl).
  - exact (proj1 (proj2 (proj2 (proj2 (saveEdits_alerts_on_failure_forwards_on_success
             {| videoPath := VStr "/videos/a.mp4"; onSave := false |} initial
             (Resolved true (inr VNull)) eq_refl))))
             VNull eq_refl eq_refl).
Defined.

Lemma saveEdits_settle_sends_nothing (p : props) (s : state) (o : settled) :
  List.filter is_fetch (effects_of (saveEdits_settle p o s)) = [].
Proof.
  destruct o as [e | ok [e | data]]; try reflexivity.
  unfold saveEdits_settle. run_handler.
  destruct ok.
  - destruct (onSave p); [destruct (get_prop data "edited_path") |]; reflexivity.
  - destruct (get_prop data "error"); reflexivity.
Qed.

Lemma example_edits_builds (s : state) :
  editConfig s = VObj ∅ →
  example_edits s
  = (inr tt,
     {| editConfig :=
          VObj {[ "trim" := VObj {[ "start" := VNum 0; "end" := VNum 10 ]};
                  "resize" := VObj {[ "width" := VNum 1920; "height" := VNum 1080 ]} ]};
        selectedPreset := selectedPreset s;
        isEditing := isEditing s |},
     []).
Proof.
  destruct s as [c sp ie]; simpl; intros ->.
  unfold example_edits. cbv beta delta [mbind handler_bind bind].
  rewrite !updateEditConfig_object. vm_compute. reflexivity.
Qed.

Lemma saveEdits_sends_once (p : props) (s : state) (o : settled) :
  truthy (videoPath p) = true →
  List.filter is_fetch (effects_of (saveEdits p o s))
  = [edit_request (videoPath p) (editConfig s)].
Proof.
  intros Hp. unfold saveEdits. cbv beta delta [mbind handler_bind bind].
  rewrite saveEdits_begin_sends by done. cbv beta iota.
  match goal with
  | |- context [saveEdits_settle p o ?s1] =>
      pose proof (saveEdits_settle_sends_nothing p s1 o) as Hnone;
      destruct (saveEdits_settle p o s1) as [[r2 s2] t2]
  end.
  unfold effects_of in *; simpl in *. by rewrite Hnone.
Qed.

(** Without a video path [saveEdits] stops at its guard. *)
Example saveEdits_without_path (cfg : value) (o : settled) :
  saveEdits {| videoPath := VNull; onSave := true |} o
    {| editConfig := cfg; selectedPreset := ""; isEditing := false |}
  = (inr tt,
     {| editConfig := cfg; selectedPreset := ""; isEditing := false |},
     [Alert "No video selected for editing"]).
Proof. reflexivity. Qed.

(** C1. After [set('trim','start',0)], [set('trim','end',10)],
    [set('resize','width',1920)], [set('resize','height',1080)] on the
    empty configuration, [submit()] for the video at path [p] sends one
    request, a POST whose body is
    [{"video_path": p, "edit_config": {"trim": {"start":0,"end":10},
      "resize": {"width":1920,"height":1080}}}]. *)
Theorem example_edits_then_saveEdits_posts
    (p : string) (callback : bool) (o : settled) (Hpath : p ≠ "") :
  List.filter is_fetch
    (effects_of
       ((example_edits;; saveEdits {| videoPath := VStr p; onSave := callback |} o) initial))
  = [Fetch "/api/editor/edit"
       (Some {| method := "POST";
                headers := {[ "Content-Type" := "application/json" ]};
                body :=
                  VObj {[ "video_path" := VStr p;
                          "edit_config" :=
                            VObj {[ "trim" := VObj {[ "start" := VNum 0; "end" := VNum 10 ]};
                                    "resize" := VObj {[ "width" := VNum 1920;
                                                        "height" := VNum 1080 ]} ]} ]} |})].
Proof.
  assert (Htruthy : truthy (VStr p) = true) by (destruct p; [done | reflexivity]).
  pose proof (example_edits_builds initial eq_refl) as Hbuilt.
  cbv beta delta [mbind handler_bind bind]. rewrite Hbuilt. cbv beta iota.
  match goal with
  | |- context [saveEdits ?pr o ?s1] =>
      pose proof (saveEdits_sends_once pr s1 o Htruthy) as Honce;
      destruct (saveEdits pr o s1) as [[r2 s2] t2]
  end.
  unfold effects_of in *; simpl in *. rewrite Honce. reflexivity.
Qed.

Lemma example_edits_then_saveEdits_posts_witness :
  List.filter is_fetch
    (effects_of
       ((example_edits;;
         saveEdits {| videoPath := VStr "/videos/a.mp4"; onSave := true |}
           (Resolved true (inr (VObj {[ "edited_path" := VStr "/videos/b.mp4" ]}))))
          initial))
  = [Fetch "/api/editor/edit"
       (Some {| method := "POST";
                headers := {[ "Content-Type" := "application/json" ]};
                body :=
                  VObj {[ "video_path" := VStr "/videos/a.mp4";
                          "edit_config" :=
                            VObj {[ "trim" := VObj {[ "start" := VNum 0; "end" := VNum 10 ]};
                                    "resize" := VObj {[ "width" := VNum 1920;
                                                        "height" := VNum 1080 ]} ]} ]} |})].
Proof.
  apply (example_edits_then_saveEdits_posts "/videos/a.mp4" true).
  discriminate.
Defined.

(** C2. When the fetched preset map has a preset under [presetKey],
    [apply(presetKey)] makes the preset's [config] the edit
    configuration: nothing of the prior configuration is in the result. *)
Theorem applyPreset_replaces_configuration
    (s : state) (presetKey : string) (ok : bool) (data presets preset : value)
    (Hmap : get_prop data "presets" = inr presets)
    (Hfound : get_prop presets presetKey = inr preset)
    (Hexists : truthy preset = true) :
  applyPreset presetKey (Resolved ok (inr data)) s
  = (inr tt,
     {| editConfig := get_opt preset "config";
        selectedPreset := presetKey;
        isEditing := isEditing s |},
     [Fetch "/api/editor/presets" None]).
Proof.
  unfold applyPreset, applyPreset_begin, applyPreset_settle, get_opt. run_handler.
  rewrite Hmap, Hfound, Hexists.
  destruct preset; try discriminate; reflexivity.
Qed.

Lemma applyPreset_replaces_configuration_witness :
  let cinematic :=
    VObj {[ "name" := VStr "Cinematic";
            "config" := VObj {[ "fade_in" := VObj {[ "duration" := VNum 1 ]} ]} ]} in
  let prior :=
    {| editConfig := VObj {[ "trim" := VObj {[ "start" := VNum 3 ]} ]};
       selectedPreset := ""; isEditing := false |} in
  applyPreset "cinematic"
    (Resolved true (inr (VObj {[ "presets" := VObj {[ "cinematic" := cinematic ]} ]}))) prior
  = (inr tt,
     {| editConfig := VObj {[ "fade_in" := VObj {[ "duration" := VNum 1 ]} ]};
        selectedPreset := "cinematic"; isEditing := false |},
     [Fetch "/api/editor/presets" None]).
Proof.
  exact (applyPreset_replaces_configuration
           {| editConfig := VObj {[ "trim" := VObj {[ "start" := VNum 3 ]} ]};
              selectedPreset := ""; isEditing := false |}
           "cinematic" true
           (VObj {[ "presets" :=
                      VObj {[ "cinematic" :=
                                VObj {[ "name" := VStr "Cinematic";
                                        "config" := VObj {[ "fade_in" :=
                                                              VObj {[ "duration" := VNum 1 ]} ]} ]} ]} ]})
           (VObj {[ "cinematic" :=
                      VObj {[ "name" := VStr "Cinematic";
                              "config" := VObj {[ "fade_in" :=
                                                    VObj {[ "duration" := VNum 1 ]} ]} ]} ]})
           (VObj {[ "name" := VStr "Cinematic";
                    "config" := VObj {[ "fade_in" := VObj {[ "duration" := VNum 1 ]} ]} ]})
           eq_refl eq_refl eq_refl).
Defined.

Lemma get_opt_object (m : gmap string value) (k : string) :
  get_opt (VObj m) k = default VUndefined (m !! k).
Proof. unfold get_opt. by rewrite get_prop_object. Qed.

Lemma effects_list_written (m : gmap string value) (sp : string) (ie : bool) (v : value) :
  effects_list
    (state_of (updateEditConfig "effects" "list" v
                 {| editConfig := VObj m; selectedPreset := sp; isEditing := ie |}))
  = v.
Proof.
  rewrite updateEditConfig_object. unfold effects_list, state_of; simpl.
  rewrite get_opt_object, lookup_insert_eq; simpl.
  by rewrite get_opt_object, lookup_insert_eq.
Qed.

Lemma effects_list_kept (m : gmap string value) (sp : string) (ie : bool)
    (section key : string) (v : value) :
  section ≠ "effects" →
  effects_list
    (state_of (updateEditConfig section key v
                 {| editConfig := VObj m; selectedPreset := sp; isEditing := ie |}))
  = effects_list {| editConfig := VObj m; selectedPreset := sp; isEditing := ie |}.
Proof.
  intros Hne. rewrite updateEditConfig_object. unfold effects_list, state_of; simpl.
  by rewrite !get_opt_object, lookup_insert_ne.
Qed.

Lemma handle_keeps_built (c : control) (s : state) :
  built_by_controls s →
  ∃ s', handle c s = (inr tt, s', []) ∧ built_by_controls s'.
Proof.
  intros [[m Hm] Hone]. destruct s as [cfg sp ie]; simpl in Hm; subst cfg.
  assert (Hkept : ∀ section key v, section ≠ "effects" →
            ∃ s', updateEditConfig section key v
                    {| editConfig := VObj m; selectedPreset := sp; isEditing := ie |}
                  = (inr tt, s', []) ∧ built_by_controls s').
  { intros section key v Hne.
    pose proof (effects_list_kept m sp ie section key v Hne) as Hl.
    rewrite updateEditConfig_object in Hl |- *. eexists; split; [reflexivity |].
    split; [by eexists |]. unfold at_most_one_effect, state_of in *; simpl in Hl.
    by rewrite Hl. }
  assert (Hswitch : ∀ effect_id checked, effect_id ∈ effect_ids →
            ∃ s', effect_switch effect_id checked
                    {| editConfig := VObj m; selectedPreset := sp; isEditing := ie |}
                  = (inr tt, s', []) ∧ built_by_controls s').
  { intros effect_id [] Hin; unfold effect_switch.
    - pose proof (effects_list_written m sp ie (VArr [VStr effect_id])) as Hl.
      rewrite updateEditConfig_object in Hl |- *. eexists; split; [reflexivity |].
      split; [by eexists |]. right. exists effect_id. by split.
    - eexists; split; [reflexivity |]. split; [by eexists | done]. }
  destruct c; simpl;
    try (apply Hkept; discriminate);
    try (apply Hswitch; unfold effect_ids; set_solver).
  eexists; split; [reflexivity |]. split; [by eexists |]. by left.
Qed.

Lemma handle_all_keeps_built (cs : list control) (s : state) :
  built_by_controls s →
  ∃ s', handle_all cs s = (inr tt, s', []) ∧ built_by_controls s'.
Proof.
  revert s. induction cs as [| c cs IH]; intros s Hs; simpl.
  - by exists s.
  - destruct (handle_keeps_built c s Hs) as (s1 & Hstep & Hs1).
    destruct (IH s1 Hs1) as (s2 & Hrest & Hs2).
    exists s2. split; [| done].
    cbv beta delta [mbind handler_bind bind]. by rewrite Hstep, Hrest.
Qed.

Lemma switch_on_builds (m : gmap string value) (sp : string) (ie : bool) :
  Forall (λ switch : bool → control,
            ∃ s', handle (switch true)
                    {| editConfig := VObj m; selectedPreset := sp; isEditing := ie |}
                  = (inr tt, s', []) ∧ built_by_controls s')
    effect_switches.
Proof.
  repeat constructor; cbn [handle]; unfold effect_switch;
    match goal with
    | |- context [updateEditConfig _ _ ?v _] =>
        pose proof (effects_list_written m sp ie v) as Hl
    end;
    rewrite updateEditConfig_object in Hl |- *;
    (eexists; split; [reflexivity |]; split; [by eexists |]);
    right; eexists; (split; [| exact Hl]); unfold effect_ids; set_solver.
Qed.

Ltac run_switches :=
  cbn [handle]; unfold effect_switch;
  cbv beta iota delta [mbind mret handler_bind handler_ret bind ret];
  rewrite ?updateEditConfig_object; cbv beta iota;
  rewrite ?updateEditConfig_object;
  unfold effects_list, state_of; cbn [fst snd editConfig];
  rewrite ?get_opt_object, ?lookup_insert_eq; cbn [default from_option id];
  rewrite ?get_opt_object, ?lookup_insert_eq; try reflexivity.

(** C10, as stated, fails: [effects.list] does not always hold at most
    one identifier.  A preset's configuration is stored as it comes, here
    with the two effects [fade_in] and [fade_out], and since a switch
    that is turned off removes nothing, both stay however the switches
    are turned off afterwards. *)
Lemma preset_installs_two_effects :
  let s := state_of ((applyPreset "cinematic" (Resolved true (inr two_effect_presets));;
                      handle_all [bw_effect false; speed_effect false; slow_effect false])
                       initial) in
  effects_list s = VArr [VStr "fade_in"; VStr "fade_out"]
  ∧ ¬ at_most_one_effect s.
Proof.
  assert (Hlist : effects_list
                    (state_of ((applyPreset "cinematic" (Resolved true (inr two_effect_presets));;
                                handle_all [bw_effect false; speed_effect false;
                                            slow_effect false])
                                 initial))
                  = VArr [VStr "fade_in"; VStr "fade_out"]) by (vm_compute; reflexivity).
  cbv zeta. split; [exact Hlist |].
  intros [Hnone | (effect_id & _ & Hone)]; rewrite Hlist in *; discriminate.
Qed.

(** C10, amended. On every configuration that is an object, be it one a
    preset installed: each of the three effect switches, turned off,
    leaves the configuration as it is; turned on, it makes [effects.list]
    the one-element list of its own effect ([black_and_white], [speed_up],
    [slow_motion]), whatever the list held before, so turning on a second
    effect replaces the first and turning it off again removes nothing.
    Hence [effects.list] holds at most one effect identifier as long as
    the configuration was built by the form controls alone: from the
    empty form, after a click on Reset, or from the moment a switch is
    turned on.  (A preset may install a longer list.) *)
Theorem effect_switches_hold_at_most_one
    (m : gmap string value) (sp : string) (ie : bool) (cs : list control) :
  let c := {| editConfig := VObj m; selectedPreset := sp; isEditing := ie |} in
  Forall (λ switch : bool → control, handle (switch false) c = (inr tt, c, []))
    effect_switches
  ∧ effects_list (state_of (handle (bw_effect true) c)) = VArr [VStr "black_and_white"]
  ∧ effects_list (state_of (handle (speed_effect true) c)) = VArr [VStr "speed_up"]
  ∧ effects_list (state_of (handle (slow_effect true) c)) = VArr [VStr "slow_motion"]
  ∧ Forall (λ first : bool → control,
              Forall (λ second : bool → control,
                        effects_list
                          (state_of ((handle (first true);; handle (second true)) c))
                        = effects_list (state_of (handle (second true) c))
                        ∧ effects_list
                            (state_of ((handle (first true);; handle (second false)) c))
                          = effects_list (state_of (handle (first true) c)))
                effect_switches)
      effect_switches
  ∧ (∃ s', handle_all cs initial = (inr tt, s', []) ∧ at_most_one_effect s')
  ∧ (∃ s', handle_all (reset_button :: cs) c = (inr tt, s', []) ∧ at_most_one_effect s')
  ∧ Forall (λ switch : bool → control,
              ∃ s', handle_all (switch true :: cs) c = (inr tt, s', [])
                    ∧ at_most_one_effect s')
      effect_switches.
Proof.
  intros c. subst c.
  split; [by repeat constructor |].
  split; [run_switches |]. split; [run_switches |]. split; [run_switches |].
  split; [repeat constructor; run_switches |].
  split.
  { destruct (handle_all_keeps_built cs initial) as (s' & Hrun & _ & Hone).
    - split; [by eexists | by left].
    - by exists s'. }
  split.
  { destruct (handle_all_keeps_built cs
                {| editConfig := VObj ∅; selectedPreset := sp; isEditing := ie |})
      as (s' & Hrun & _ & Hone).
    - split; [by eexists | by left].
    - exists s'. split; [| done]. cbn [handle_all handle].
      cbv beta iota delta [mbind handler_bind bind reset setEditConfig modify].
      cbn [selectedPreset isEditing]. by rewrite Hrun. }
  pose proof (switch_on_builds m sp ie) as Hon.
  eapply Forall_impl; [exact Hon |].
  intros switch (s1 & Hstep & Hbuilt). cbv beta.
  destruct (handle_all_keeps_built cs s1 Hbuilt) as (s' & Hrun & _ & Hone).
  exists s'. split; [| done]. cbn [handle_all].
  cbv beta iota delta [mbind handler_bind bind]. by rewrite Hstep, Hrun.
Qed.

(** * Properties of the generation form *)

Import VideoGenerator.

Example trim_keeps_inner_space : trim "  a majestic dragon  " = "a majestic dragon".
Proof. reflexivity. Qed.

(** SP TAB LF, NBSP, LS, U+3000, the text, U+FEFF, CR *)
Example trim_strips_unicode_space :
  trim (string_of_list_ascii
          (map ascii_of_nat
             [32; 9; 10; 194; 160; 226; 128; 168; 227; 128; 128; 104; 105; 239; 187; 191; 13]))
  = "hi".
Proof. reflexivity. Qed.

(** U+00E9 (C3 A9) and U+2192 (E2 86 92) are not white space *)
Example trim_keeps_other_multibyte :
  trim (string_of_list_ascii (map ascii_of_nat [195; 169; 226; 134; 146]))
  = string_of_list_ascii (map ascii_of_nat [195; 169; 226; 134; 146]).
Proof. reflexivity. Qed.

(** C5. With a script that is empty once trimmed, the generation request
    sends nothing and leaves the whole generation state, progress, busy
    flag and stored descriptor included, as it was; the user gets an
    alert. *)
Theorem generateVideo_blank_script_sends_nothing
    (s : state) (randoms : list Q) (o : settled)
    (Hblank : trim (script s) = "") :
  generateVideo randoms o s = (inr tt, s, [Alert "Please enter a script"])
  ∧ List.filter is_fetch (effects_of (generateVideo randoms o s)) = []
  ∧ progress (state_of (generateVideo randoms o s)) = progress s
  ∧ isGenerating (state_of (generateVideo randoms o s)) = isGenerating s
  ∧ generatedVideo (state_of (generateVideo randoms o s)) = generatedVideo s.
Proof.
  assert (Hrun : generateVideo randoms o s = (inr tt, s, [Alert "Please enter a script"])).
  { unfold generateVideo, generateVideo_begin. run_handler. cbv [id].
    rewrite Hblank. reflexivity. }
  rewrite Hrun. repeat split.
Qed.

Lemma generateVideo_blank_script_sends_nothing_witness :
  let blank := string_of_list_ascii (map ascii_of_nat [32; 9; 10; 194; 160; 32]) in
  let s :=
    {| script := blank; selectedStyle := "anime"; duration := [7%Z];
       aspectRatio := "square"; isGenerating := false;
       generatedVideo := VObj {[ "video_id" := VStr "abc" ]};
       styles := VObj ∅; progress := 100; progressInterval := false |} in
  generateVideo [1 # 2] (Resolved true (inr (VObj ∅))) s
  = (inr tt, s, [Alert "Please enter a script"]).
Proof.
  exact (proj1 (generateVideo_blank_script_sends_nothing
           {| script := string_of_list_ascii (map ascii_of_nat [32; 9; 10; 194; 160; 32]);
              selectedStyle := "anime"; duration := [7%Z];
              aspectRatio := "square"; isGenerating := false;
              generatedVideo := VObj {[ "video_id" := VStr "abc" ]};
              styles := VObj ∅; progress := 100; progressInterval := false |}
           [1 # 2] (Resolved true (inr (VObj ∅))) eq_refl)).
Defined.

Lemma interval_fires_below (r : Q) (s : state) :
  unit_interval r → below_completion s →
  ∃ s' t, interval_fires r s = (inr tt, s', t)
          ∧ below_completion s' ∧ script s' = script s.
Proof.
  intros [Hr0 Hr1] [Hp0 Hp1].
  unfold interval_fires, progress_tick, clearInterval, setProgress. run_handler.
  destruct (progressInterval s).
  - destruct (Qle_bool 90 (progress s)) eqn:Hcap.
    + eexists _, _. split; [reflexivity |]. split; [| reflexivity].
      unfold below_completion; simpl. split; lra.
    + eexists _, _. split; [reflexivity |]. split; [| reflexivity].
      assert (Hlt : (progress s < 90)%Q).
      { apply Qnot_le_lt. intros Hle. apply Qle_bool_iff in Hle. congruence. }
      unfold below_completion; simpl. split; lra.
  - eexists _, _. split; [reflexivity |]. by split.
Qed.

Lemma ticks_below (randoms : list Q) (s : state) :
  Forall unit_interval randoms → below_completion s →
  ∃ s' t, ticks randoms s = (inr tt, s', t)
          ∧ below_completion s' ∧ script s' = script s.
Proof.
  intros Hall. revert s. induction Hall as [| r rest Hr Hrest IH]; intros s Hs; simpl.
  - by eexists _, _.
  - destruct (interval_fires_below r s Hr Hs) as (s1 & t1 & Hone & Hs1 & Hscript1).
    destruct (IH s1 Hs1) as (s2 & t2 & Hmore & Hs2 & Hscript2).
    exists s2, (t1 ++ t2)%list. split; [| split; [done | congruence]].
    cbv beta delta [mbind handler_bind bind]. by rewrite Hone, Hmore.
Qed.



Lemma interval_fires_progress (r : Q) (s : VideoGenerator.state) :
  progress (state_of (interval_fires r s))
  = if progressInterval s then
      if Qle_bool 90 (progress s) then 90%Q else (progress s + r * 10)%Q
    else progress s.
Proof.
  unfold interval_fires, progress_tick, clearInterval, setProgress. run_handler.
  destruct (progressInterval s); [| done]. by destruct (Qle_bool 90 (progress s)).
Qed.


Lemma ticks_step (r : Q) (rest : list Q) (s : VideoGenerator.state) :
  state_of (ticks (r :: rest) s) = state_of (ticks rest (state_of (interval_fires r s))).
Proof.
  simpl. cbv beta iota delta [mbind handler_bind bind].
  unfold interval_fires, progress_tick, clearInterval, setProgress. run_handler.
  destruct (progressInterval s); [destruct (Qle_bool 90 (progress s)) |];
    simpl; by destruct (ticks rest _) as [[? ?] ?].
Qed.






(** The tick after the tenth finds 90 and the timer stops itself; the
    ticks still listed never fire. *)
Example progress_stops_at_ninety :
  let s := state_of ((generateVideo_begin;;
                      ticks [9 # 10; 9 # 10; 9 # 10; 9 # 10; 9 # 10; 9 # 10;
                             9 # 10; 9 # 10; 9 # 10; 9 # 10; 99 # 100; 1 # 2])
                       {| script := "a dragon"; selectedStyle := "fantasy";
                          duration := [5%Z]; aspectRatio := "landscape";
                          isGenerating := false; generatedVideo := VNull;
                          styles := VObj ∅; progress := 0;
                          progressInterval := false |}) in
  Qred (progress s) = 90%Q ∧ progressInterval s = false.
Proof. vm_compute. split; reflexivity. Qed.

(** A tick may carry the progress past 90 (here to 98), and the next one
    brings it back to 90. *)
Example progress_overshoots_then_returns :
  let start := {| script := "a dragon"; selectedStyle := "fantasy";
                  duration := [5%Z]; aspectRatio := "landscape";
                  isGenerating := true; generatedVideo := VNull;
                  styles := VObj ∅; progress := 89; progressInterval := true |} in
  Qred (progress (state_of (ticks [9 # 10] start))) = 98%Q
  ∧ Qred (progress (state_of (ticks [9 # 10; 1 # 2] start))) = 90%Q.
Proof. vm_compute. split; reflexivity. Qed.

(** * Properties of the cloud panel *)

Import AzureIntegration.

Lemma uploadToAzure_settle_failed (s : AzureIntegration.state) (o : settled) :
  failed o = true →
  uploadToAzure_settle o s
  = (inr tt,
     {| azureStatus := azureStatus s; uploadStatus := uploadStatus s;
        streamingInfo := streamingInfo s; videoAnalysis := videoAnalysis s;
        isUploading := false; isAnalyzing := isAnalyzing s |},
     [ConsoleError "Error uploading to Azure:" (caught "Failed to upload to Azure" o);
      Alert ("Error uploading to Azure: " ++ message (caught "Failed to upload to Azure" o))]).
Proof.
  intros Hf. destruct o as [e | ok [e | data]]; simpl in Hf; try reflexivity.
  destruct ok; [discriminate |].
  unfold uploadToAzure_settle, caught. run_handler.
  destruct (get_prop data "error"); reflexivity.
Qed.

(** C7. When the upload call fails (the fetch rejects, the body does not
    parse, or the response is not ok), [streamingInfo] and
    [videoAnalysis] hold after the upload what they held before it, and
    no streaming request is started that could change them later. *)
Theorem uploadToAzure_failure_keeps_results
    (p : AzureIntegration.props) (s : AzureIntegration.state) (o : settled)
    (Hfailed : failed o = true) :
  streamingInfo (state_of (uploadToAzure p o s)) = streamingInfo s
  ∧ videoAnalysis (state_of (uploadToAzure p o s)) = videoAnalysis s
  ∧ uploadStatus (state_of (uploadToAzure p o s)) = uploadStatus s
  ∧ in_createStreamingEndpoints ∉ omap issuer (effects_of (uploadToAzure p o s)).
Proof.
  unfold uploadToAzure, uploadToAzure_begin. cbv beta delta [mbind handler_bind bind].
  destruct (truthy (AzureIntegration.videoPath p)); simpl.
  - rewrite uploadToAzure_settle_failed by done. simpl.
    repeat split. unfold effects_of; simpl.
    rewrite list_elem_of_singleton. discriminate.
  - repeat split. unfold effects_of; simpl. apply not_elem_of_nil.
Qed.

Lemma uploadToAzure_failure_keeps_results_witness :
  let s :=
    {| azureStatus := VObj {[ "configured" := VBool true ]};
       uploadStatus := VObj {[ "blob_url" := VStr "https://blob/old.mp4" ]};
       streamingInfo := VObj {[ "streaming_urls" := VObj {[ "hls" := VStr "https://s/old" ]} ]};
       videoAnalysis := VObj {[ "insights" := VObj ∅ ]};
       isUploading := false; isAnalyzing := false |} in
  let r := uploadToAzure {| AzureIntegration.videoPath := VStr "/videos/new.mp4" |}
             (Resolved false (inr (VObj {[ "error" := VStr "quota exceeded" ]}))) s in
  streamingInfo (state_of r) = streamingInfo s
  ∧ videoAnalysis (state_of r) = videoAnalysis s.
Proof.
  destruct (uploadToAzure_failure_keeps_results
              {| AzureIntegration.videoPath := VStr "/videos/new.mp4" |}
              {| azureStatus := VObj {[ "configured" := VBool true ]};
                 uploadStatus := VObj {[ "blob_url" := VStr "https://blob/old.mp4" ]};
                 streamingInfo :=
                   VObj {[ "streaming_urls" := VObj {[ "hls" := VStr "https://s/old" ]} ]};
                 videoAnalysis := VObj {[ "insights" := VObj ∅ ]};
                 isUploading := false; isAnalyzing := false |}
              (Resolved false (inr (VObj {[ "error" := VStr "quota exceeded" ]})))
              eq_refl)
    as (Hstreaming & Hanalysis & _).
  split; [exact Hstreaming | exact Hanalysis].
Defined.

(** ** Framing handlers

    The combinators keep a handler [framed]. *)
Section Frame.
Context {S : Type} (R : relation S) `{!PreOrder R} (Q : effect → Prop).

Lemma framed_ret {A : Type} (a : A) : framed R Q (mret a).
Proof. intros s. split; [reflexivity | constructor]. Qed.

Lemma framed_throw {A : Type} (e : error) : framed R Q (throw (A := A) e).
Proof. intros s. split; [reflexivity | constructor]. Qed.

Lemma framed_lift {A : Type} (r : result A) : framed R Q (lift r).
Proof. intros s. split; [reflexivity | constructor]. Qed.

Lemma framed_gets {A : Type} (f : S → A) : framed R Q (gets f).
Proof. intros s. split; [reflexivity | constructor]. Qed.

Lemma framed_emit (e : effect) : Q e → framed R Q (emit e).
Proof. intros He s. split; [reflexivity | by repeat constructor]. Qed.

Lemma framed_modify (f : S → S) : (∀ s, R s (f s)) → framed R Q (modify f).
Proof. intros Hf s. split; [apply Hf | constructor]. Qed.

Lemma framed_bind {A B : Type} (m : M S A) (f : A → M S B) :
  framed R Q m → (∀ a, framed R Q (f a)) → framed R Q (m ≫= f).
Proof.
  intros Hm Hf s. specialize (Hm s).
  cbv beta delta [mbind handler_bind bind].
  destruct (m s) as [[[e | a] s1] t1]; [exact Hm |].
  specialize (Hf a s1). destruct (f a s1) as [[r2 s2] t2].
  unfold state_of, effects_of in *; simpl in *.
  destruct Hm as [Hm1 Hm2], Hf as [Hf1 Hf2].
  split; [by transitivity s1 | by apply Forall_app].
Qed.

Lemma framed_try_catch {A : Type} (m : M S A) (h : error → M S A) :
  framed R Q m → (∀ e, framed R Q (h e)) → framed R Q (try_catch m h).
Proof.
  intros Hm Hh s. specialize (Hm s). unfold try_catch.
  destruct (m s) as [[[e | a] s1] t1]; [| exact Hm].
  specialize (Hh e s1). destruct (h e s1) as [[r2 s2] t2].
  unfold state_of, effects_of in *; simpl in *.
  destruct Hm as [Hm1 Hm2], Hh as [Hh1 Hh2].
  split; [by transitivity s1 | by apply Forall_app].
Qed.

Lemma framed_await (o : settled) : framed R Q (await_response o).
Proof.
  destruct o as [e | ok [e | data]]; simpl;
    first [apply framed_throw | apply (framed_ret (ok, data))].
Qed.

(** After [try { m } finally { f }] the state is the one [f] leaves,
    and the effects are those of [m] then those of [f]. *)
Lemma try_finally_run {A : Type} (m : M S A) (f : M S unit) (s : S) :
  state_of (try_finally m f s) = state_of (f (state_of (m s)))
  ∧ effects_of (try_finally m f s)
    = (effects_of (m s) ++ effects_of (f (state_of (m s))))%list.
Proof.
  unfold try_finally, state_of, effects_of.
  destruct (m s) as [[r s1] t1]; simpl. by destruct (f s1) as [[r2 s2] t2].
Qed.
End Frame.

#[local] Instance same_flags_preorder : PreOrder same_flags.
Proof.
  split.
  - by intros s.
  - intros s1 s2 s3 [H1 H2] [H3 H4]. split; congruence.
Qed.

Ltac frame_step :=
  match goal with
  | |- framed ?R ?Q (if ?b then _ else _) => destruct b
  | |- framed ?R ?Q (let '(_, _) := ?x in _) => destruct x
  | |- framed ?R ?Q _ =>
      first
        [ apply (framed_bind R Q); [| intros ?]
        | apply (framed_try_catch R Q); [| intros ?]
        | apply (framed_ret R Q)
        | apply (framed_throw R Q)
        | apply (framed_lift R Q)
        | apply (framed_gets R Q)
        | apply (framed_await R Q)
        | apply (framed_emit R Q); by vm_compute
        | apply (framed_modify R Q); intros ?; by split ]
  end.














(** A click that is followed at once by the settling of its request is
    the whole call of [applyPreset]. *)
Lemma preset_pressed_then_settled (c : App.client) (k : string) (o : settled) :
  App.live_step (App.live_step c (App.preset_pressed k))
    (App.preset_settles (length (App.presets_in_flight c)) o)
  = App.live_step c (App.whole (App.preset_clicked k o)).
Proof.
  destruct c as [[path gen aw ed cl lg] l].
  cbn [App.live_step App.at_rest App.presets_in_flight App.step].
  rewrite lookup_app_r by done. rewrite Nat.sub_diag. cbn [lookup list_lookup].
  unfold App.with_editor, VideoEditor.applyPreset, VideoEditor.applyPreset_begin.
  cbn [App.editor App.currentVideoPath App.generator App.awaiting_styles App.cloud App.log].
  cbv beta iota delta [mbind handler_bind bind emit].
  unfold state_of, effects_of. cbn [fst snd].
  destruct (applyPreset_settle k o ed) as [[r s'] log'].
  cbn [fst snd App.deliver fold_left app].
  assert (Hrest : delete (length l) (l ++ [k])%list = l).
  { induction l as [| x l IH]; [done |]. simpl. by f_equal. }
  rewrite Hrest, <- app_assoc. by destruct cl.
Qed.


(** Handed a video path, the cloud panel does not keep to one request
    either: with the analysis request still out, a click on Upload puts a
    second request in flight.  ([App] as it is never hands the panel a
    path.) *)
Lemma analysis_and_upload_in_flight_together :
  in_flight (run {| AzureIntegration.videoPath := VStr "/videos/a.mp4" |} analyze_then_upload)
  = [in_analyzeVideo; in_uploadToAzure]
  ∧ ¬ at_most_one_in_flight
        (run {| AzureIntegration.videoPath := VStr "/videos/a.mp4" |} analyze_then_upload).
Proof.
  assert (Hrun : in_flight (run {| AzureIntegration.videoPath := VStr "/videos/a.mp4" |}
                              analyze_then_upload)
                 = [in_analyzeVideo; in_uploadToAzure]) by (vm_compute; reflexivity).
  split; [exact Hrun |]. unfold at_most_one_in_flight. rewrite Hrun. simpl. lia.
Qed.

(** The automatic streaming request is under no flag: right after a
    successful upload it is in flight with both flags down, and a click on
    Upload adds a second request. *)
Example streaming_and_upload_in_flight_together :
  in_flight
    (run {| AzureIntegration.videoPath := VStr "/videos/a.mp4" |}
       [ settles 0 (Resolved true (inr (VObj {[ "configured" := VBool true ]})));
         click_upload;
         settles 0 (Resolved true (inr (VObj {[ "blob_url" := VStr "https://blob/a.mp4" ]})));
         click_upload ])
  = [in_createStreamingEndpoints; in_uploadToAzure].
Proof. vm_compute. reflexivity. Qed.



(** * Further properties of the edit form *)

Import VideoEditor.

Lemma get_prop_truthy (v : value) (k : string) :
  truthy v = true → get_prop v k = inr (get_opt v k).
Proof. intros Hv. unfold get_opt. by destruct v. Qed.

(** [applyPreset] once the preset map is there and holds a preset under
    the key. *)
Lemma applyPreset_settle_found
    (s : state) (k : string) (ok : bool) (data presets preset : value) :
  get_prop data "presets" = inr presets →
  get_prop presets k = inr preset →
  truthy preset = true →
  applyPreset_settle k (Resolved ok (inr data)) s
  = (inr tt,
     {| editConfig := get_opt preset "config"; selectedPreset := k;
        isEditing := isEditing s |},
     []).
Proof.
  intros Hmap Hfound Hexists.
  unfold applyPreset_settle. run_handler.
  rewrite Hmap, Hfound, Hexists, (get_prop_truthy preset "config" Hexists).
  reflexivity.
Qed.

(** Every other way [applyPreset] can go leaves the state alone and ends,
    at most, in a [console.error]. *)
Lemma applyPreset_settle_cases (s : state) (k : string) (o : settled) :
  (∃ log, applyPreset_settle k o s = (inr tt, s, log)
          ∧ List.filter is_alert log = [] ∧ List.filter is_fetch log = []
          ∧ ∀ ok data presets preset,
              o = Resolved ok (inr data) →
              get_prop data "presets" = inr presets →
              get_prop presets k = inr preset →
              truthy preset = false)
  ∨ (∃ ok data presets preset,
       o = Resolved ok (inr data)
       ∧ get_prop data "presets" = inr presets
       ∧ get_prop presets k = inr preset
       ∧ truthy preset = true
       ∧ applyPreset_settle k o s
         = (inr tt,
            {| editConfig := get_opt preset "config"; selectedPreset := k;
               isEditing := isEditing s |},
            [])).
Proof.
  destruct o as [e | ok [e | data]];
    [left; eexists; by repeat split | left; eexists; by repeat split |].
  destruct (get_prop data "presets") as [e | presets] eqn:Hmap.
  { left. eexists. unfold applyPreset_settle. run_handler. rewrite Hmap.
    repeat split; try done. intros ok' data' presets' preset' [= _ <-]. congruence. }
  destruct (get_prop presets k) as [e | preset] eqn:Hfound.
  { left. eexists. unfold applyPreset_settle. run_handler. rewrite Hmap, Hfound.
    repeat split; try done. intros ok' data' presets' preset' [= _ <-]. congruence. }
  destruct (truthy preset) eqn:Hexists.
  - right. exists ok, data, presets, preset. repeat split; try done.
    by apply (applyPreset_settle_found s k ok data presets).
  - left. eexists. unfold applyPreset_settle. run_handler.
    rewrite Hmap, Hfound, Hexists. destruct s.
    repeat split; try done. intros ok' data' presets' preset' [= _ <-]. congruence.
Qed.

(** X1. Whatever comes back, [applyPreset] never throws, never shows an
    alert, sends only its one GET and leaves [isEditing] alone.  It is all
    or nothing: when the body's [presets] holds a truthy value under the
    key that was clicked, that preset's [config] becomes the
    configuration and the key the selected preset; in every other case
    (rejected fetch, unparsable body, no [presets], no such preset) the
    state is left exactly as it was.  It does not look at [response.ok]. *)
Theorem applyPreset_is_silent_and_all_or_nothing (s : state) (k : string) (o : settled) :
  outcome_of (applyPreset k o s) = inr tt
  ∧ List.filter is_alert (effects_of (applyPreset k o s)) = []
  ∧ List.filter is_fetch (effects_of (applyPreset k o s)) = [Fetch "/api/editor/presets" None]
  ∧ ((∃ ok data presets preset,
        o = Resolved ok (inr data)
        ∧ get_prop data "presets" = inr presets
        ∧ get_prop presets k = inr preset
        ∧ truthy preset = true
        ∧ state_of (applyPreset k o s)
          = {| editConfig := get_opt preset "config"; selectedPreset := k;
               isEditing := isEditing s |})
     ∨ ((∀ ok data presets preset,
           o = Resolved ok (inr data) →
           get_prop data "presets" = inr presets →
           get_prop presets k = inr preset →
           truthy preset = false)
        ∧ state_of (applyPreset k o s) = s))
  ∧ (∀ ok ok' body, applyPreset k (Resolved ok body) s = applyPreset k (Resolved ok' body) s).
Proof.
  split; [| split; [| split; [| split]]].
  1-4: unfold applyPreset, applyPreset_begin; cbv beta delta [mbind handler_bind bind emit];
       destruct (applyPreset_settle_cases s k o)
         as [(log & -> & Hquiet & Hsent & Hnone)
            | (ok & data & presets & preset & Ho & Hmap & Hfound & Hexists & ->)];
       unfold outcome_of, effects_of, state_of; simpl; try done.
  - by rewrite Hsent.
  - by right.
  - left. by exists ok, data, presets, preset.
  - intros ok ok' body. by destruct body.
Qed.

(** X2. A preset that exists but carries no [config] (or a [null] one)
    takes the form down without a word: [applyPreset] ends normally,
    with no alert and nothing in the console, and has stored the missing
    [config] as the configuration and the key as the selected preset; the
    render that follows cannot be completed, since [Object.keys(editConfig)]
    for the Current Configuration card throws a TypeError, and so does the
    volume label where the audio tab is shown. *)
Theorem preset_without_config_breaks_render
    (s : state) (k : string) (ok : bool) (data presets preset : value)
    (Hmap : get_prop data "presets" = inr presets)
    (Hfound : get_prop presets k = inr preset)
    (Hexists : truthy preset = true)
    (Hnone : nullish (get_opt preset "config") = true) :
  let broken := state_of (applyPreset k (Resolved ok (inr data)) s) in
  applyPreset k (Resolved ok (inr data)) s
  = (inr tt,
     {| editConfig := get_opt preset "config"; selectedPreset := k;
        isEditing := isEditing s |},
     [Fetch "/api/editor/presets" None])
  ∧ nullish (editConfig broken) = true
  ∧ shows_configuration broken = inl not_an_object
  ∧ shown_volume broken = inl (read_of_nullish (editConfig broken) "volume").
Proof.
  intros broken.
  assert (Hrun : applyPreset k (Resolved ok (inr data)) s
                 = (inr tt,
                    {| editConfig := get_opt preset "config"; selectedPreset := k;
                       isEditing := isEditing s |},
                    [Fetch "/api/editor/presets" None])).
  { unfold applyPreset, applyPreset_begin.
    cbv beta iota delta [mbind handler_bind bind emit].
    by rewrite (applyPreset_settle_found s k ok data presets preset). }
  split; [exact Hrun |].
  unfold broken. rewrite Hrun. unfold state_of. cbn [fst snd editConfig].
  split; [exact Hnone |]. split.
  - unfold shows_configuration, count_keys; simpl. by rewrite Hnone.
  - unfold shown_volume; simpl. by destruct (get_opt preset "config").
Qed.

Lemma preset_without_config_breaks_render_witness :
  let bare := VObj {[ "name" := VStr "Cinematic" ]} in
  let data := VObj {[ "presets" := VObj {[ "cinematic" := bare ]} ]} in
  let broken := state_of (applyPreset "cinematic" (Resolved true (inr data)) initial) in
  applyPreset "cinematic" (Resolved true (inr data)) initial
  = (inr tt,
     {| editConfig := VUndefined; selectedPreset := "cinematic"; isEditing := false |},
     [Fetch "/api/editor/presets" None])
  ∧ shows_configuration broken
    = inl {| name := "TypeError"; message := "Cannot convert undefined or null to object" |}.
Proof.
  assert (Hmap : get_prop
                   (VObj {[ "presets" :=
                              VObj {[ "cinematic" := VObj {[ "name" := VStr "Cinematic" ]} ]} ]})
                   "presets"
                 = inr (VObj {[ "cinematic" := VObj {[ "name" := VStr "Cinematic" ]} ]}))
    by (vm_compute; reflexivity).
  assert (Hfound : get_prop (VObj {[ "cinematic" := VObj {[ "name" := VStr "Cinematic" ]} ]})
                     "cinematic"
                   = inr (VObj {[ "name" := VStr "Cinematic" ]}))
    by (vm_compute; reflexivity).
  destruct (preset_without_config_breaks_render initial "cinematic" true _ _ _
              Hmap Hfound eq_refl eq_refl)
    as (Hrun & _ & Hcard & _).
  split; [exact Hrun | exact Hcard].
Defined.

Lemma saveEdits_settle_cases (p : props) (o : settled) (s : state) :
  ∃ log,
    saveEdits_settle p o s
    = (inr tt,
       {| editConfig := editConfig s; selectedPreset := selectedPreset s;
          isEditing := false |},
       log)
    ∧ length (List.filter is_alert log) = 1
    ∧ (length (List.filter is_onSave log) ≤ 1)%nat
    ∧ (failed o = true ∨ onSave p = false → List.filter is_onSave log = []).
Proof.
  destruct o as [e | ok [e | data]].
  1, 2: eexists; split; [reflexivity |]; simpl; repeat split; lia.
  unfold saveEdits_settle. run_handler. destruct ok.
  - destruct (onSave p) eqn:Hcb.
    + destruct (get_prop data "edited_path");
        (eexists; split; [reflexivity |]; simpl; repeat split; try lia;
         intros [? | ?]; done).
    + eexists; split; [reflexivity |]; simpl; repeat split; lia.
  - destruct (get_prop data "error");
      (eexists; split; [reflexivity |]; simpl; repeat split; lia).
Qed.

(** X3. Once [submit()] has sent its request, whatever comes back it
    shows exactly one alert, lowers [isEditing], leaves the edit
    configuration and the selected preset as they were (also on success),
    and calls [onSave] at most once, never on a failure and never when no
    callback was given. *)
Theorem saveEdits_settles_cleanly
    (p : props) (o : settled) (s : state)
    (Hpath : truthy (videoPath p) = true) :
  outcome_of (saveEdits p o s) = inr tt
  ∧ state_of (saveEdits p o s)
    = {| editConfig := editConfig s; selectedPreset := selectedPreset s;
         isEditing := false |}
  ∧ length (List.filter is_alert (effects_of (saveEdits p o s))) = 1
  ∧ (length (List.filter is_onSave (effects_of (saveEdits p o s))) ≤ 1)%nat
  ∧ (failed o = true ∨ onSave p = false →
     List.filter is_onSave (effects_of (saveEdits p o s)) = []).
Proof.
  unfold saveEdits. cbv beta delta [mbind handler_bind bind].
  rewrite saveEdits_begin_sends by done. cbv beta iota.
  match goal with
  | |- context [saveEdits_settle p o ?s1] =>
      destruct (saveEdits_settle_cases p o s1) as (log & -> & Hone & Hmost & Hnever)
  end.
  unfold outcome_of, state_of, effects_of; simpl. done.
Qed.

Lemma saveEdits_settles_cleanly_witness :
  let p := {| videoPath := VStr "/videos/a.mp4"; onSave := true |} in
  let r := saveEdits p (Resolved true (inr VNull)) initial in
  state_of r = initial
  ∧ length (List.filter is_alert (effects_of r)) = 1
  ∧ List.filter is_onSave (effects_of r) = [].
Proof.
  destruct (saveEdits_settles_cleanly
              {| videoPath := VStr "/videos/a.mp4"; onSave := true |}
              (Resolved true (inr VNull)) initial eq_refl)
    as (_ & Hstate & Halert & _ & _).
  split; [exact Hstate |]. split; [exact Halert |]. vm_compute. reflexivity.
Defined.

Lemma click_save_run (p : props) (o : settled) (s : state) :
  click_save p o s = if save_disabled p s then (inr tt, s, []) else saveEdits p o s.
Proof.
  unfold click_save. run_handler. cbv [id].
  destruct (save_disabled p s); [reflexivity |].
  by destruct (saveEdits p o s) as [[r s'] log].
Qed.

Lemma saveEdits_never_complains_of_path (p : props) (o : settled) (s : state) :
  truthy (videoPath p) = true →
  Forall (λ e, e ≠ Alert "No video selected for editing") (effects_of (saveEdits p o s)).
Proof.
  intros Hpath. unfold saveEdits. cbv beta delta [mbind handler_bind bind].
  rewrite saveEdits_begin_sends by done. cbv beta iota. unfold edit_request.
  destruct o as [e | ok [e | data]].
  1, 2: by repeat constructor.
  unfold saveEdits_settle. run_handler.
  destruct ok; [destruct (onSave p); [destruct (get_prop data "edited_path") |]
               | destruct (get_prop data "error")];
    by repeat constructor.
Qed.

(** X4. The Apply Edits button and the guard of [saveEdits] agree: a
    click on the disabled button does nothing at all; a click on the
    enabled one sends exactly one request, never shows the "No video
    selected" alert, and leaves the button disabled until the request has
    settled, so a second click cannot send a second request. *)
Theorem save_button_guards_saveEdits (p : props) (o : settled) (s : state) :
  (save_disabled p s = true → click_save p o s = (inr tt, s, []))
  ∧ (save_disabled p s = false →
     click_save p o s = saveEdits p o s
     ∧ List.filter is_fetch (effects_of (click_save p o s))
       = [edit_request (videoPath p) (editConfig s)]
     ∧ Forall (λ e, e ≠ Alert "No video selected for editing")
         (effects_of (click_save p o s))
     ∧ save_disabled p (state_of (saveEdits_begin p s)) = true
     ∧ click_save p o (state_of (saveEdits_begin p s))
       = (inr tt, state_of (saveEdits_begin p s), [])).
Proof.
  split; intros Hoff.
  - by rewrite click_save_run, Hoff.
  - rewrite !click_save_run, Hoff.
    unfold save_disabled in Hoff. apply orb_false_elim in Hoff as [Hidle Hpath].
    apply negb_false_iff in Hpath.
    split; [done |]. split; [by apply saveEdits_sends_once |].
    split; [by apply saveEdits_never_complains_of_path |].
    rewrite saveEdits_begin_sends by done. by unfold state_of, save_disabled.
Qed.

Lemma save_button_guards_saveEdits_witness :
  let p := {| videoPath := VStr "/videos/a.mp4"; onSave := true |} in
  click_save {| videoPath := VNull; onSave := true |} (Rejected {| name := "TypeError"; message := "Failed to fetch" |}) initial
  = (inr tt, initial, [])
  ∧ List.filter is_fetch
      (effects_of (click_save p (Rejected {| name := "TypeError"; message := "Failed to fetch" |}) initial))
    = [edit_request (VStr "/videos/a.mp4") (VObj ∅)].
Proof.
  split.
  - exact (proj1 (save_button_guards_saveEdits {| videoPath := VNull; onSave := true |}
                    (Rejected {| name := "TypeError"; message := "Failed to fetch" |}) initial)
             eq_refl).
  - exact (proj1 (proj2 (proj2 (save_button_guards_saveEdits
                    {| videoPath := VStr "/videos/a.mp4"; onSave := true |}
                    (Rejected {| name := "TypeError"; message := "Failed to fetch" |}) initial)
             eq_refl))).
Defined.

(** On a configuration that is an object, a control's handler neither
    throws nor logs anything, and it writes only [editConfig]. *)
Lemma handle_on_object (c : control) (m : gmap string value) (sp : string) (ie : bool) :
  ∃ m', handle c {| editConfig := VObj m; selectedPreset := sp; isEditing := ie |}
        = (inr tt, {| editConfig := VObj m'; selectedPreset := sp; isEditing := ie |}, []).
Proof.
  destruct c; simpl; unfold effect_switch;
    try (rewrite updateEditConfig_object; by eexists);
    try (destruct checked; [rewrite updateEditConfig_object |]; by eexists).
  by eexists.
Qed.

Lemma handle_all_on_object (cs : list control) (m : gmap string value) (sp : string) (ie : bool) :
  ∃ m', handle_all cs {| editConfig := VObj m; selectedPreset := sp; isEditing := ie |}
        = (inr tt, {| editConfig := VObj m'; selectedPreset := sp; isEditing := ie |}, []).
Proof.
  revert m. induction cs as [| c cs IH]; intros m; simpl.
  - by exists m.
  - destruct (handle_on_object c m sp ie) as (m1 & Hstep).
    destruct (IH m1) as (m2 & Hrest).
    exists m2. cbv beta delta [mbind handler_bind bind]. by rewrite Hstep, Hrest.
Qed.

Lemma handle_all_app (cs1 cs2 : list control) (s : state) :
  handle_all (cs1 ++ cs2) s = (handle_all cs1;; handle_all cs2) s.
Proof.
  revert s. induction cs1 as [| c cs1 IH]; intros s; simpl.
  - cbv beta iota delta [mbind mret handler_bind handler_ret bind ret].
    by destruct (handle_all cs2 s) as [[r s'] log].
  - cbv beta iota delta [mbind handler_bind bind].
    destruct (handle c s) as [[[e | []] s1] log1]; [done |].
    rewrite IH. cbv beta iota delta [mbind handler_bind bind].
    destruct (handle_all cs1 s1) as [[[e | []] s2] log2]; [done |].
    destruct (handle_all cs2 s2) as [[r s3] log3].
    by rewrite app_assoc.
Qed.

(** X5. On a configuration that is an object, no sequence of form
    controls throws, alerts or sends anything, and none touches the
    selected preset or the busy flag; and whatever was entered before a
    click on Reset is forgotten: the controls used after it give the same
    state as if they had been used on the empty form. *)
Theorem controls_are_total_and_reset_forgets
    (before after : list control) (m : gmap string value) (sp : string) (ie : bool) :
  let s := {| editConfig := VObj m; selectedPreset := sp; isEditing := ie |} in
  (∃ m', handle_all before s
         = (inr tt, {| editConfig := VObj m'; selectedPreset := sp; isEditing := ie |}, []))
  ∧ handle_all (before ++ reset_button :: after) s
    = handle_all after {| editConfig := VObj ∅; selectedPreset := sp; isEditing := ie |}.
Proof.
  intros s. destruct (handle_all_on_object before m sp ie) as (m1 & Hbefore).
  split; [by exists m1 |].
  rewrite handle_all_app. cbv beta iota delta [mbind handler_bind bind].
  fold s in Hbefore. rewrite Hbefore. simpl.
  cbv beta iota delta [mbind handler_bind bind reset setEditConfig modify].
  simpl. by destruct (handle_all after _) as [[r s'] log].
Qed.

Lemma setting_written (m : gmap string value) (sp : string) (ie : bool)
    (section key : string) (v : value) :
  setting section key
    (state_of (updateEditConfig section key v
                 {| editConfig := VObj m; selectedPreset := sp; isEditing := ie |}))
  = v.
Proof.
  rewrite updateEditConfig_object. unfold setting, state_of; simpl.
  rewrite get_opt_object, lookup_insert_eq; simpl.
  by rewrite get_opt_object, lookup_insert_eq.
Qed.

Lemma get_opt_JSON_stringify (m : gmap string value) (k : string) :
  get_opt (JSON_stringify (VObj m)) k
  = match m !! k with
    | Some VUndefined | None => VUndefined
    | Some x => JSON_stringify x
    end.
Proof.
  simpl. rewrite get_opt_object, lookup_omap.
  destruct (m !! k) as [x |]; [| done]. by destruct x.
Qed.

(** X6. The number inputs with a [|| default]: the text duration that is
    stored is the parsed number when it is truthy and 5 otherwise, so it
    is never 0 or [NaN]; the trim start is the parsed number or 0; the
    trim end has no default, and a cleared field ([NaN]) is stored as it
    is and reaches the backend as [null]. *)
Theorem number_inputs_default_when_falsy
    (m : gmap string value) (sp : string) (ie : bool) (parsed : value) (path : string)
    (Hpath : path ≠ "") :
  let s := {| editConfig := VObj m; selectedPreset := sp; isEditing := ie |} in
  let stored c section key := setting section key (state_of (handle c s)) in
  stored (text_duration parsed) "text_overlays" "duration" = js_or parsed (VNum 5)
  ∧ truthy (stored (text_duration parsed) "text_overlays" "duration") = true
  ∧ stored (start_time parsed) "trim" "start" = js_or parsed (VNum 0)
  ∧ stored (start_time parsed) "trim" "start" ≠ VNaN
  ∧ stored (end_time parsed) "trim" "end" = parsed
  ∧ (∀ sent, List.filter is_fetch
               (effects_of ((handle (end_time VNaN);;
                             saveEdits_begin {| videoPath := VStr path; onSave := true |}) s))
             = [sent] →
       get_opt (get_opt (get_opt (request_body sent) "edit_config") "trim") "end" = VNull).
Proof.
  intros s stored. unfold stored, s, handle.
  rewrite !setting_written.
  split; [done |]. split; [unfold js_or; by destruct (truthy parsed) eqn:E |].
  split; [done |]. split.
  { unfold js_or. destruct (truthy parsed) eqn:E; [| done]. by intros ->. }
  split; [done |].
  intros sent. cbv beta iota delta [mbind handler_bind bind].
  rewrite updateEditConfig_object. cbv beta iota.
  rewrite saveEdits_begin_sends by (destruct path; [done | reflexivity]).
  unfold effects_of; cbn [snd app List.filter is_fetch edit_request]. intros [= <-].
  unfold edit_request, post_json. cbn [request_body body videoPath editConfig].
  rewrite get_opt_JSON_stringify, lookup_insert_ne, lookup_singleton_eq by done.
  rewrite get_opt_JSON_stringify, lookup_insert_eq.
  by rewrite get_opt_JSON_stringify, lookup_insert_eq.
Qed.

Lemma number_inputs_default_when_falsy_witness :
  let stored c section key := setting section key (state_of (handle c initial)) in
  stored (text_duration (VNum 0)) "text_overlays" "duration" = VNum 5
  ∧ stored (start_time VNaN) "trim" "start" = VNum 0
  ∧ stored (end_time VNaN) "trim" "end" = VNaN.
Proof.
  assert (Hpath : "/videos/a.mp4" ≠ "") by discriminate.
  split; [| split].
  - exact (proj1 (number_inputs_default_when_falsy ∅ "" false (VNum 0) "/videos/a.mp4" Hpath)).
  - exact (proj1 (proj2 (proj2
             (number_inputs_default_when_falsy ∅ "" false VNaN "/videos/a.mp4" Hpath)))).
  - exact (proj1 (proj2 (proj2 (proj2 (proj2
             (number_inputs_default_when_falsy ∅ "" false VNaN "/videos/a.mp4" Hpath)))))).
Defined.

(** X7. The volume label shows [factor || 1]: on a configuration that is
    an object it can always be rendered and never shows a falsy value; after
    the slider is moved the configuration holds the thumb's value as it
    is, while the label shows 1 in its place whenever that value is falsy
    (a slider at 0 is stored, and submitted, as 0 and shown as 1). *)
Theorem volume_label_shows_one_for_falsy
    (m : gmap string value) (sp : string) (ie : bool) (thumb : value) :
  let s := {| editConfig := VObj m; selectedPreset := sp; isEditing := ie |} in
  let moved := state_of (handle (volume_slider thumb) s) in
  (∃ shown, shown_volume s = inr shown ∧ truthy shown = true)
  ∧ setting "volume" "factor" moved = thumb
  ∧ shown_volume moved = inr (js_or thumb (VNum 1)).
Proof.
  intros s moved. split; [| split].
  - unfold shown_volume, s; cbn [editConfig]. rewrite get_prop_object.
    eexists. split; [reflexivity |].
    unfold js_or. by destruct (truthy (get_opt _ "factor")) eqn:E.
  - apply setting_written.
  - unfold moved, s, handle. rewrite updateEditConfig_object.
    unfold shown_volume, state_of; cbn [fst snd editConfig].
    rewrite get_prop_object, lookup_insert_eq; cbn [default from_option id].
    by rewrite get_opt_object, lookup_insert_eq.
Qed.

(** * Further properties of the generation form *)

Import VideoGenerator.

Lemma fetchStyles_settle_cases (o : settled) (s : VideoGenerator.state) :
  (∃ e, fetchStyles_settle o s = (inr tt, s, [ConsoleError "Error fetching styles:" e]))
  ∨ (∃ listed,
       fetchStyles_settle o s
       = (inr tt,
          {| script := script s; selectedStyle := selectedStyle s;
             duration := duration s; aspectRatio := aspectRatio s;
             isGenerating := isGenerating s; generatedVideo := generatedVideo s;
             styles := js_or listed (VObj ∅); progress := progress s;
             progressInterval := progressInterval s |},
          [])).
Proof.
  destruct o as [e | ok [e | data]]; [left; by eexists | left; by eexists |].
  unfold fetchStyles_settle, setStyles. run_handler.
  destruct (get_prop data "styles") as [e | listed]; [left | right]; by eexists.
Qed.

(** X8. [fetchStyles] never throws and never alerts; a rejected fetch or
    an unparsable body is only logged and leaves the styles as they were; otherwise the styles become [data.styles || {}],
    whatever [response.ok] says.  Either way truthy styles stay truthy,
    so the style select, which calls [Object.entries(styles)], can still
    be rendered. *)
Theorem fetchStyles_keeps_styles_usable (o : settled) (s : VideoGenerator.state)
    (Husable : truthy (styles s) = true) :
  outcome_of (fetchStyles o s) = inr tt
  ∧ List.filter is_alert (effects_of (fetchStyles o s)) = []
  ∧ List.filter is_fetch (effects_of (fetchStyles o s)) = [Fetch "/api/styles/list" None]
  ∧ truthy (styles (state_of (fetchStyles o s))) = true
  ∧ (∃ n, style_options (state_of (fetchStyles o s)) = inr n)
  ∧ (∀ e, o = Rejected e ∨ (∃ ok, o = Resolved ok (inl e)) →
     fetchStyles o s
     = (inr tt, s, [Fetch "/api/styles/list" None; ConsoleError "Error fetching styles:" e]))
  ∧ (∀ ok data listed,
       o = Resolved ok (inr data) → get_prop data "styles" = inr listed →
       styles (state_of (fetchStyles o s)) = js_or listed (VObj ∅)).
Proof.
  assert (Hcount : ∀ v, truthy v = true → ∃ n, count_keys v = inr n).
  { intros v Hv. unfold count_keys. destruct v; try discriminate; by eexists. }
  unfold fetchStyles, fetchStyles_begin. cbv beta iota delta [mbind handler_bind bind emit].
  split; [| split; [| split; [| split; [| split; [| split]]]]].
  1-5: destruct (fetchStyles_settle_cases o s) as [(e & ->) | (listed & ->)];
       unfold outcome_of, effects_of, state_of, style_options; simpl; try done;
       try (by apply Hcount).
  - unfold js_or. by destruct (truthy listed) eqn:E.
  - apply Hcount. unfold js_or. by destruct (truthy listed) eqn:E.
  - by intros e [-> | [ok ->]].
  - intros ok data listed -> Hlisted.
    unfold fetchStyles_settle, setStyles. run_handler. by rewrite Hlisted.
Qed.

Lemma fetchStyles_keeps_styles_usable_witness :
  state_of (fetchStyles (Resolved true (inr (VObj {[ "styles" := VNull ]}))) VideoGenerator.initial)
  = VideoGenerator.initial
  ∧ truthy (styles (state_of (fetchStyles (Resolved true (inr VNull)) VideoGenerator.initial)))
    = true.
Proof.
  split; [vm_compute; reflexivity |].
  exact (proj1 (proj2 (proj2 (proj2
           (fetchStyles_keeps_styles_usable (Resolved true (inr VNull))
              VideoGenerator.initial eq_refl))))).
Defined.

(** ** Which scripts pass the guard *)

Lemma byte_in_not_visible (a : ascii) (codes : list nat) :
  byte_in a codes = true →
  forallb (λ c, negb ((33 <=? c) && (c <=? 126))%nat) codes = true →
  visible_ascii a = false.
Proof.
  unfold byte_in, visible_ascii. induction codes as [| c codes IH]; simpl; [done |].
  intros Hin Hout. apply andb_prop in Hout as [Hc Hrest].
  apply orb_prop in Hin as [Heq | Hin]; [| by apply IH].
  apply Nat.eqb_eq in Heq. rewrite Heq. by apply negb_true_iff.
Qed.

Lemma white1_not_visible (a : ascii) : white1 a = true → visible_ascii a = false.
Proof. intros H. by apply (byte_in_not_visible a _ H). Qed.

Lemma white2_not_visible (a b : ascii) :
  white2 a b = true → visible_ascii a = false ∧ visible_ascii b = false.
Proof.
  unfold white2. intros [Ha Hb]%andb_prop.
  split; by eapply byte_in_not_visible.
Qed.

Lemma white3_not_visible (a b c : ascii) :
  white3 a b c = true →
  visible_ascii a = false ∧ visible_ascii b = false ∧ visible_ascii c = false.
Proof.
  unfold white3. intros H.
  repeat (apply orb_prop in H as [H | H]);
    apply andb_prop in H as [[Ha Hb]%andb_prop Hc];
    repeat split; by eapply byte_in_not_visible.
Qed.

(** Stripping white space removes no visible character. *)
Lemma strip_keeps_visible (backwards : bool) (l : list ascii) :
  List.filter visible_ascii (strip backwards l) = List.filter visible_ascii l.
Proof.
  assert (Hall : ∀ n l, (length l ≤ n)%nat →
            List.filter visible_ascii (strip backwards l) = List.filter visible_ascii l).
  { clear l. induction n as [| n IH]; intros l Hlen.
    { destruct l; [done | simpl in Hlen; lia]. }
    destruct l as [| a [| b [| c t3]]]; simpl in *.
    - done.
    - destruct (white1 a) eqn:H1; [by rewrite (white1_not_visible a) | done].
    - destruct (white1 a) eqn:H1.
      { rewrite (white1_not_visible a H1). apply (IH [b]). simpl; lia. }
      destruct (if backwards then white2 b a else white2 a b) eqn:H2; [| done].
      assert (visible_ascii a = false ∧ visible_ascii b = false) as [-> ->]; [| done].
      destruct backwards; apply white2_not_visible in H2; tauto.
    - destruct (white1 a) eqn:H1.
      { rewrite (white1_not_visible a H1). apply (IH (b :: c :: t3)). simpl; lia. }
      destruct (if backwards then white2 b a else white2 a b) eqn:H2.
      { assert (visible_ascii a = false ∧ visible_ascii b = false) as [-> ->].
        { destruct backwards; apply white2_not_visible in H2; tauto. }
        apply (IH (c :: t3)). simpl; lia. }
      destruct (if backwards then white3 c b a else white3 a b c) eqn:H3; [| done].
      assert (visible_ascii a = false ∧ visible_ascii b = false ∧ visible_ascii c = false)
        as (-> & -> & ->).
      { destruct backwards; apply white3_not_visible in H3; tauto. }
      apply IH. lia. }
  by apply (Hall (length l)).
Qed.

Lemma trim_keeps_visible (s : string) :
  List.filter visible_ascii (list_ascii_of_string (trim s))
  = List.filter visible_ascii (list_ascii_of_string s).
Proof.
  unfold trim. rewrite list_ascii_of_string_of_list_ascii.
  rewrite filter_rev, strip_keeps_visible, filter_rev, rev_involutive.
  apply strip_keeps_visible.
Qed.

Lemma trim_of_ascii_space (s : string) :
  forallb white1 (list_ascii_of_string s) = true → trim s = "".
Proof.
  intros Hall. unfold trim.
  assert (Hstrip : strip false (list_ascii_of_string s) = []).
  { induction (list_ascii_of_string s) as [| a l IH]; [done |].
    simpl in *. apply andb_prop in Hall as [-> Hl]. by apply IH. }
  by rewrite Hstrip.
Qed.

Lemma trim_with_visible (s : string) :
  existsb visible_ascii (list_ascii_of_string s) = true → trim s ≠ "".
Proof.
  intros Hsome Hblank. pose proof (trim_keeps_visible s) as Hkept.
  rewrite Hblank in Hkept. simpl in Hkept.
  induction (list_ascii_of_string s) as [| a l IH]; [done |].
  simpl in *. destruct (visible_ascii a); [done | by apply IH].
Qed.

(** [generateVideo] up to its await, on a script that passes the guard. *)
Lemma generateVideo_begin_sends (s : VideoGenerator.state) :
  trim (script s) ≠ "" →
  generateVideo_begin s
  = (inr true,
     {| script := script s; selectedStyle := selectedStyle s;
        duration := duration s; aspectRatio := aspectRatio s;
        isGenerating := true; generatedVideo := generatedVideo s;
        styles := styles s; progress := 0;
        progressInterval := true |},
     [SetInterval 500; generate_request s]).
Proof.
  intros Hscript.
  unfold generateVideo_begin, setInterval, setProgress, setIsGenerating, generate_request.
  run_handler. cbv [id].
  assert (Htruthy : truthy (VStr (trim (script s))) = true).
  { simpl. destruct (trim (script s)); [done | reflexivity]. }
  by rewrite Htruthy.
Qed.

(** The timer writes only the progress and its own flag, and the only
    effect it has is to clear itself. *)
Lemma ticks_frame (randoms : list Q) (s : VideoGenerator.state) :
  ∃ q live log,
    ticks randoms s
    = (inr tt,
       {| script := script s; selectedStyle := selectedStyle s;
          duration := duration s; aspectRatio := aspectRatio s;
          isGenerating := isGenerating s; generatedVideo := generatedVideo s;
          styles := styles s; progress := q;
          progressInterval := live |},
       log)
    ∧ List.filter is_fetch log = [] ∧ List.filter is_alert log = [].
Proof.
  revert s. induction randoms as [| r rest IH]; intros s; simpl.
  - exists (progress s), (progressInterval s), []. by destruct s.
  - assert (Hone : ∃ q live log,
              interval_fires r s
              = (inr tt,
                 {| script := script s; selectedStyle := selectedStyle s;
                    duration := duration s; aspectRatio := aspectRatio s;
                    isGenerating := isGenerating s; generatedVideo := generatedVideo s;
                    styles := styles s; progress := q;
                    progressInterval := live |},
                 log)
              ∧ List.filter is_fetch log = [] ∧ List.filter is_alert log = []).
    { unfold interval_fires, progress_tick, clearInterval, setProgress. run_handler.
      destruct (progressInterval s) eqn:Hlive; [destruct (Qle_bool 90 (progress s)) |].
      - by eexists _, _, _.
      - by eexists _, _, _.
      - exists (progress s), false, []. rewrite <- Hlive. by destruct s. }
    destruct Hone as (q1 & live1 & log1 & Hone & Hf1 & Ha1).
    destruct (IH {| script := script s; selectedStyle := selectedStyle s;
                    duration := duration s; aspectRatio := aspectRatio s;
                    isGenerating := isGenerating s; generatedVideo := generatedVideo s;
                    styles := styles s; progress := q1;
                    progressInterval := live1 |})
      as (q2 & live2 & log2 & Hrest & Hf2 & Ha2).
    exists q2, live2, (log1 ++ log2)%list.
    cbv beta iota delta [mbind handler_bind bind]. rewrite Hone, Hrest. simpl.
    rewrite !List.filter_app, Hf1, Hf2, Ha1, Ha2. done.
Qed.

Lemma generateVideo_settle_cases (o : settled) (s : VideoGenerator.state) :
  generateVideo_settle o s
  = if failed o then
      (inr tt,
       {| script := script s; selectedStyle := selectedStyle s;
          duration := duration s; aspectRatio := aspectRatio s;
          isGenerating := false; generatedVideo := generatedVideo s;
          styles := styles s; progress := progress s;
          progressInterval := false |},
       [ConsoleError "Error generating video:" (caught "Failed to generate video" o);
        Alert ("Error generating video: " ++ message (caught "Failed to generate video" o));
        ClearInterval])
    else
      (inr tt,
       {| script := script s; selectedStyle := selectedStyle s;
          duration := duration s; aspectRatio := aspectRatio s;
          isGenerating := false;
          generatedVideo := match o with
                            | Resolved _ (inr data) => data
                            | _ => generatedVideo s
                            end;
          styles := styles s; progress := 100;
          progressInterval := false |},
       [ClearInterval]).
Proof.
  destruct o as [e | ok [e | data]]; try reflexivity.
  destruct ok; [reflexivity |].
  unfold generateVideo_settle, caught. run_handler. simpl.
  by destruct (get_prop data "error").
Qed.

Lemma generateVideo_sends_once (randoms : list Q) (o : settled) (s : VideoGenerator.state) :
  trim (script s) ≠ "" →
  List.filter is_fetch (effects_of (generateVideo randoms o s)) = [generate_request s]
  ∧ Forall (λ e, e ≠ Alert "Please enter a script") (effects_of (generateVideo randoms o s)).
Proof.
  intros Hscript. unfold generateVideo. cbv beta iota delta [mbind handler_bind bind].
  rewrite generateVideo_begin_sends by done. cbv beta iota.
  match goal with
  | |- context [ticks randoms ?s1] =>
      destruct (ticks_frame randoms s1) as (q & live & log & -> & Hsent & Hquiet)
  end.
  cbv beta iota. rewrite generateVideo_settle_cases.
  assert (Hlog : Forall (λ e, e ≠ Alert "Please enter a script") log).
  { apply Forall_forall. intros e Hin ->.
    assert (Hin' : In (Alert "Please enter a script") (List.filter is_alert log))
      by (apply filter_In; split; [by apply list_elem_of_In | done]).
    by rewrite Hquiet in Hin'. }
  unfold effects_of, generate_request.
  destruct (failed o); cbn [snd app]; (split;
    [ cbn [List.filter is_fetch]; by rewrite List.filter_app, Hsent
    | repeat first [apply Forall_cons; split; [done |] | apply Forall_app; split];
      try done; by repeat constructor ]).
Qed.

(** X9. Which scripts pass the guard of [generateVideo]: a script made
    only of ASCII white space (space, tab, line feed, vertical tab, form
    feed, carriage return) is turned down with the alert and nothing is
    sent; a script with at least one visible ASCII character is accepted,
    whatever surrounds it: exactly one request goes out, without the
    "Please enter a script" alert, and it carries the script as typed, not
    the trimmed one. *)
Theorem generateVideo_accepts_visible_scripts
    (randoms : list Q) (o : settled) (s : VideoGenerator.state) :
  (forallb white1 (list_ascii_of_string (script s)) = true →
   generateVideo randoms o s = (inr tt, s, [Alert "Please enter a script"]))
  ∧ (existsb visible_ascii (list_ascii_of_string (script s)) = true →
     List.filter is_fetch (effects_of (generateVideo randoms o s)) = [generate_request s]
     ∧ Forall (λ e, e ≠ Alert "Please enter a script") (effects_of (generateVideo randoms o s))
     ∧ get_opt (request_body (generate_request s)) "script" = VStr (script s)).
Proof.
  split.
  - intros Hspace. unfold generateVideo, generateVideo_begin. run_handler. cbv [id].
    by rewrite (trim_of_ascii_space _ Hspace).
  - intros Hvisible. pose proof (trim_with_visible _ Hvisible) as Hscript.
    destruct (generateVideo_sends_once randoms o s Hscript) as [Hsent Hquiet].
    split; [done |]. split; [done |].
    unfold generate_request, post_json. cbn [request_body body].
    by rewrite get_opt_JSON_stringify, lookup_insert_eq.
Qed.

Lemma generateVideo_accepts_visible_scripts_witness :
  let typed := {| script := "  a dragon  "; selectedStyle := "fantasy"; duration := [5%Z];
                  aspectRatio := "landscape"; isGenerating := false; generatedVideo := VNull;
                  styles := VObj ∅; progress := 0; progressInterval := false |} in
  let blank := {| script := "   "; selectedStyle := "fantasy"; duration := [5%Z];
                  aspectRatio := "landscape"; isGenerating := false; generatedVideo := VNull;
                  styles := VObj ∅; progress := 0; progressInterval := false |} in
  generateVideo [] (Resolved true (inr VNull)) blank
  = (inr tt, blank, [Alert "Please enter a script"])
  ∧ get_opt (request_body (generate_request typed)) "script" = VStr "  a dragon  ".
Proof.
  split.
  - exact (proj1 (generateVideo_accepts_visible_scripts [] (Resolved true (inr VNull))
                    {| script := "   "; selectedStyle := "fantasy"; duration := [5%Z];
                       aspectRatio := "landscape"; isGenerating := false;
                       generatedVideo := VNull; styles := VObj ∅; progress := 0;
                       progressInterval := false |}) eq_refl).
  - exact (proj2 (proj2 (proj2 (generateVideo_accepts_visible_scripts []
                    (Resolved true (inr VNull))
                    {| script := "  a dragon  "; selectedStyle := "fantasy";
                       duration := [5%Z]; aspectRatio := "landscape";
                       isGenerating := false; generatedVideo := VNull; styles := VObj ∅;
                       progress := 0; progressInterval := false |}) eq_refl))).
Defined.

(** X10. Once a generation request is out, whatever comes back the busy
    flag is lowered and the timer cleared.  On a failure (rejected fetch,
    unparsable body, response not ok) the descriptor stored before stays,
    the progress stays where the timer left it, short of 100, and exactly
    one alert shows the error message; otherwise the body becomes the
    descriptor and the progress is 100.  The script and the other inputs
    are never touched. *)
Theorem generateVideo_releases_and_keeps_descriptor_on_failure
    (randoms : list Q) (o : settled) (s : VideoGenerator.state)
    (Hscript : trim (script s) ≠ "")
    (Hrandom : Forall unit_interval randoms) :
  let r := generateVideo randoms o s in
  outcome_of r = inr tt
  ∧ isGenerating (state_of r) = false
  ∧ progressInterval (state_of r) = false
  ∧ script (state_of r) = script s
  ∧ selectedStyle (state_of r) = selectedStyle s
  ∧ duration (state_of r) = duration s
  ∧ aspectRatio (state_of r) = aspectRatio s
  ∧ (failed o = true →
     generatedVideo (state_of r) = generatedVideo s
     ∧ below_completion (state_of r)
     ∧ List.filter is_alert (effects_of r)
       = [Alert ("Error generating video: "
                 ++ message (caught "Failed to generate video" o))])
  ∧ (∀ ok data, o = Resolved ok (inr data) → failed o = false →
     generatedVideo (state_of r) = data
     ∧ progress (state_of r) = 100%Q
     ∧ List.filter is_alert (effects_of r) = []).
Proof.
  intros r. unfold r, generateVideo. cbv beta iota delta [mbind handler_bind bind].
  rewrite generateVideo_begin_sends by done. cbv beta iota.
  match goal with
  | |- context [ticks randoms ?s1] =>
      assert (Hstart : below_completion s1) by (unfold below_completion; simpl; split; lra);
      destruct (ticks_below randoms s1 Hrandom Hstart) as (s2 & log2 & Hticks & Hbelow & _);
      destruct (ticks_frame randoms s1) as (q & live & log & Hframe & Hsent & Hquiet)
  end.
  rewrite Hframe in Hticks. injection Hticks as <- <-. rewrite Hframe. cbv beta iota.
  rewrite generateVideo_settle_cases.
  unfold outcome_of, state_of, effects_of.
  destruct (failed o) eqn:Hfailed; cbn [fst snd app script selectedStyle duration aspectRatio
    isGenerating generatedVideo progress progressInterval].
  - repeat (split; [done |]). split; [| by intros ok data _ [=]].
    intros _. split; [done |]. split; [exact Hbelow |].
    cbn [List.filter is_alert]. by rewrite List.filter_app, Hquiet.
  - repeat (split; [done |]).
    intros ok data -> _. split; [done |]. split; [done |].
    cbn [List.filter is_alert]. by rewrite List.filter_app, Hquiet.
Qed.

Lemma generateVideo_releases_and_keeps_descriptor_on_failure_witness :
  let s := {| script := "a dragon"; selectedStyle := "fantasy"; duration := [5%Z];
              aspectRatio := "landscape"; isGenerating := false;
              generatedVideo := VObj {[ "video_id" := VStr "earlier" ]};
              styles := VObj ∅; progress := 100; progressInterval := false |} in
  let r := generateVideo [1 # 2; 3 # 4]
             (Resolved false (inr (VObj {[ "error" := VStr "model busy" ]}))) s in
  isGenerating (state_of r) = false
  ∧ generatedVideo (state_of r) = VObj {[ "video_id" := VStr "earlier" ]}
  ∧ List.filter is_alert (effects_of r) = [Alert "Error generating video: model busy"].
Proof.
  assert (Hscript : trim "a dragon" ≠ "") by (vm_compute; discriminate).
  assert (Hrandom : Forall unit_interval [1 # 2; 3 # 4]).
  { repeat constructor; vm_compute; congruence. }
  destruct (generateVideo_releases_and_keeps_descriptor_on_failure [1 # 2; 3 # 4]
              (Resolved false (inr (VObj {[ "error" := VStr "model busy" ]})))
              {| script := "a dragon"; selectedStyle := "fantasy"; duration := [5%Z];
                 aspectRatio := "landscape"; isGenerating := false;
                 generatedVideo := VObj {[ "video_id" := VStr "earlier" ]};
                 styles := VObj ∅; progress := 100; progressInterval := false |}
              Hscript Hrandom)
    as (_ & Hbusy & _ & _ & _ & _ & _ & Hfail & _).
  destruct (Hfail eq_refl) as (Hkept & _ & Halert).
  split; [exact Hbusy |]. split; [exact Hkept | exact Halert].
Defined.

(** The place of the label shown for a progress value. *)
Lemma label_place_cases (q : Q) :
  ((q < 30)%Q ∧ label_place q = 0%nat)
  ∨ ((30 <= q)%Q ∧ (q < 60)%Q ∧ label_place q = 1%nat)
  ∨ ((60 <= q)%Q ∧ (q < 90)%Q ∧ label_place q = 2%nat)
  ∨ ((90 <= q)%Q ∧ label_place q = 3%nat).
Proof.
  assert (Hdec : ∀ bound : Q,
            (Qle_bool bound q = true ∧ (bound <= q)%Q)
            ∨ (Qle_bool bound q = false ∧ (q < bound)%Q)).
  { intros bound. destruct (Qle_bool bound q) eqn:E.
    - left. split; [done |]. by apply Qle_bool_iff.
    - right. split; [done |]. apply Qnot_le_lt. intros Hle.
      apply Qle_bool_iff in Hle. congruence. }
  unfold label_place, progress_label.
  destruct (Hdec 30%Q) as [[-> H30] | [-> H30]]; [| by left].
  destruct (Hdec 60%Q) as [[-> H60] | [-> H60]]; [| right; left; by repeat split].
  destruct (Hdec 90%Q) as [[-> H90] | [-> H90]];
    [right; right; right | right; right; left]; by repeat split.
Qed.

Lemma interval_fires_label (r : Q) (s : VideoGenerator.state) :
  unit_interval r →
  (label_place (progress s) ≤ label_place (progress (state_of (interval_fires r s))))%nat
  ∧ (label_place (progress (state_of (interval_fires r s))) ≤ label_place (progress s) + 1)%nat.
Proof.
  intros [Hr0 Hr1]. rewrite interval_fires_progress.
  destruct (progressInterval s); [| lia].
  destruct (Qle_bool 90 (progress s)) eqn:Hcap.
  - apply Qle_bool_iff in Hcap.
    destruct (label_place_cases (progress s)) as [H | [H | [H | H]]];
      destruct (label_place_cases 90%Q) as [H' | [H' | [H' | H']]];
      destruct H as (? & ?), H' as (? & ?); try lra;
      repeat match goal with H : _ ∧ _ |- _ => destruct H end; try lra; lia.
  - assert (Hlt : (progress s < 90)%Q).
    { apply Qnot_le_lt. intros Hle. apply Qle_bool_iff in Hle. congruence. }
    destruct (label_place_cases (progress s)) as [H | [H | [H | H]]];
      destruct (label_place_cases (progress s + r * 10)%Q) as [H' | [H' | [H' | H']]];
      destruct H as (? & ?), H' as (? & ?);
      repeat match goal with H : _ ∧ _ |- _ => destruct H end; try lra; lia.
Qed.

(** X11. The text under the progress bar moves through its four stages
    in order: a tick of the timer never takes it back to an earlier stage
    and never skips one, and over any number of ticks it only moves
    forward, even though the progress value itself can fall back to 90. *)
Theorem progress_label_moves_forward_one_stage_at_a_time
    (r : Q) (randoms : list Q) (s : VideoGenerator.state)
    (Hr : unit_interval r) (Hrandom : Forall unit_interval randoms) :
  (label_place (progress s) ≤ label_place (progress (state_of (interval_fires r s))))%nat
  ∧ (label_place (progress (state_of (interval_fires r s))) ≤ label_place (progress s) + 1)%nat
  ∧ (label_place (progress s) ≤ label_place (progress (state_of (ticks randoms s))))%nat.
Proof.
  destruct (interval_fires_label r s Hr) as [Hforward Hstep].
  split; [done |]. split; [done |].
  clear r Hr Hforward Hstep. revert s.
  induction Hrandom as [| r rest Hr _ IH]; intros s;
    [change (state_of (ticks [] s)) with s; lia |].
  rewrite ticks_step. specialize (IH (state_of (interval_fires r s))).
  destruct (interval_fires_label r s Hr) as [Hforward _]. lia.
Qed.

Lemma progress_label_moves_forward_one_stage_at_a_time_witness :
  let s := {| script := "a dragon"; selectedStyle := "fantasy"; duration := [5%Z];
              aspectRatio := "landscape"; isGenerating := true; generatedVideo := VNull;
              styles := VObj ∅; progress := 89; progressInterval := true |} in
  progress_label (progress s) = "Applying style..."
  ∧ progress_label (progress (state_of (ticks [9 # 10; 1 # 2] s))) = "Finalizing..."
  ∧ (label_place (progress s)
     ≤ label_place (progress (state_of (ticks [9 # 10; 1 # 2] s))))%nat.
Proof.
  assert (Hr : unit_interval (9 # 10)) by (split; vm_compute; congruence).
  assert (Hrandom : Forall unit_interval [9 # 10; 1 # 2]).
  { repeat constructor; vm_compute; congruence. }
  split; [vm_compute; reflexivity |]. split; [vm_compute; reflexivity |].
  exact (proj2 (proj2 (progress_label_moves_forward_one_stage_at_a_time (9 # 10) [9 # 10; 1 # 2]
           {| script := "a dragon"; selectedStyle := "fantasy"; duration := [5%Z];
              aspectRatio := "landscape"; isGenerating := true; generatedVideo := VNull;
              styles := VObj ∅; progress := 89; progressInterval := true |}
           Hr Hrandom))).
Defined.

Lemma click_generate_run (randoms : list Q) (o : settled) (s : VideoGenerator.state) :
  click_generate randoms o s
  = if generate_disabled s then (inr tt, s, []) else generateVideo randoms o s.
Proof.
  unfold click_generate. run_handler. cbv [id].
  destruct (generate_disabled s); [reflexivity |].
  by destruct (generateVideo randoms o s) as [[r s'] log].
Qed.

(** X12. The Generate button and the guard of [generateVideo] agree: a
    click on the disabled button (a request is out, or the script is blank)
    does nothing at all; a click on the enabled one sends exactly one
    request, never shows the "Please enter a script" alert, and leaves the
    button disabled until the request has settled. *)
Theorem generate_button_guards_generateVideo
    (randoms : list Q) (o : settled) (s : VideoGenerator.state) :
  (generate_disabled s = true → click_generate randoms o s = (inr tt, s, []))
  ∧ (generate_disabled s = false →
     click_generate randoms o s = generateVideo randoms o s
     ∧ List.filter is_fetch (effects_of (click_generate randoms o s)) = [generate_request s]
     ∧ Forall (λ e, e ≠ Alert "Please enter a script")
         (effects_of (click_generate randoms o s))
     ∧ generate_disabled (state_of (generateVideo_begin s)) = true
     ∧ click_generate randoms o (state_of (generateVideo_begin s))
       = (inr tt, state_of (generateVideo_begin s), [])).
Proof.
  split; intros Hoff.
  - by rewrite click_generate_run, Hoff.
  - rewrite !click_generate_run, Hoff.
    unfold generate_disabled in Hoff. apply orb_false_elim in Hoff as [Hidle Hscript].
    apply negb_false_iff in Hscript.
    assert (Htyped : trim (script s) ≠ "") by (intros Hblank; by rewrite Hblank in Hscript).
    destruct (generateVideo_sends_once randoms o s Htyped) as [Hsent Hquiet].
    split; [done |]. split; [done |]. split; [done |].
    rewrite generateVideo_begin_sends by done. by unfold state_of, generate_disabled.
Qed.

Lemma generate_button_guards_generateVideo_witness :
  let busy := {| script := "a dragon"; selectedStyle := "fantasy"; duration := [5%Z];
                 aspectRatio := "landscape"; isGenerating := true; generatedVideo := VNull;
                 styles := VObj ∅; progress := 40; progressInterval := true |} in
  click_generate [1 # 2] (Resolved true (inr VNull)) busy = (inr tt, busy, []).
Proof.
  exact (proj1 (generate_button_guards_generateVideo [1 # 2] (Resolved true (inr VNull))
                  {| script := "a dragon"; selectedStyle := "fantasy"; duration := [5%Z];
                     aspectRatio := "landscape"; isGenerating := true;
                     generatedVideo := VNull; styles := VObj ∅; progress := 40;
                     progressInterval := true |}) eq_refl).
Defined.

(** * Further properties of the cloud panel *)

Import AzureIntegration.

Lemma analyzeVideo_begin_sends (s : AzureIntegration.state) :
  truthy (get_opt (uploadStatus s) "blob_url") = true →
  analyzeVideo_begin s
  = (inr true,
     {| azureStatus := azureStatus s; uploadStatus := uploadStatus s;
        streamingInfo := streamingInfo s; videoAnalysis := videoAnalysis s;
        isUploading := isUploading s; isAnalyzing := true |},
     [analyze_request (get_opt (uploadStatus s) "blob_url")]).
Proof.
  intros Hurl. unfold analyzeVideo_begin, setIsAnalyzing, analyze_request. run_handler.
  by rewrite Hurl.
Qed.

Lemma analyzeVideo_settle_run (o : settled) (s : AzureIntegration.state) :
  analyzeVideo_settle o s
  = let fails e :=
      (inr tt,
       {| azureStatus := azureStatus s; uploadStatus := uploadStatus s;
          streamingInfo := streamingInfo s; videoAnalysis := videoAnalysis s;
          isUploading := isUploading s; isAnalyzing := false |},
       [ConsoleError "Error analyzing video:" e;
        Alert ("Error analyzing video: " ++ message e)]) in
    match o with
    | Resolved true (inr data) =>
        if nullish data then fails (read_of_nullish data "analysis")
        else
          (inr tt,
           {| azureStatus := azureStatus s; uploadStatus := uploadStatus s;
              streamingInfo := streamingInfo s;
              videoAnalysis := get_opt data "analysis";
              isUploading := isUploading s; isAnalyzing := false |},
           [])
    | _ => fails (caught "Failed to analyze video" o)
    end.
Proof.
  destruct o as [e | [] [e | data]]; try reflexivity;
    unfold analyzeVideo_settle, setVideoAnalysis, caught, get_opt; run_handler.
  - by destruct data.
  - by destruct (get_prop data "error").
Qed.

(** X13. [analyzeVideo] writes only [videoAnalysis] and its own flag.
    Without a stored upload URL it only alerts; with one it posts that
    URL, and whatever comes back [isAnalyzing] ends false while
    [azureStatus], [uploadStatus], [streamingInfo] and [isUploading] are
    as before; a failure shows the error in one alert and keeps the
    earlier analysis, a success stores [data.analysis] without any alert. *)
Theorem analyzeVideo_writes_only_the_analysis (o : settled) (s : AzureIntegration.state) :
  let r := analyzeVideo o s in
  (truthy (get_opt (uploadStatus s) "blob_url") = false →
   r = (inr tt, s, [Alert "Please upload video to Azure first"]))
  ∧ (truthy (get_opt (uploadStatus s) "blob_url") = true →
     outcome_of r = inr tt
     ∧ List.filter is_fetch (effects_of r)
       = [analyze_request (get_opt (uploadStatus s) "blob_url")]
     ∧ azureStatus (state_of r) = azureStatus s
     ∧ uploadStatus (state_of r) = uploadStatus s
     ∧ streamingInfo (state_of r) = streamingInfo s
     ∧ isUploading (state_of r) = isUploading s
     ∧ isAnalyzing (state_of r) = false
     ∧ (failed o = true →
        videoAnalysis (state_of r) = videoAnalysis s
        ∧ List.filter is_alert (effects_of r)
          = [Alert ("Error analyzing video: "
                    ++ message (caught "Failed to analyze video" o))])
     ∧ (∀ data, o = Resolved true (inr data) → nullish data = false →
        videoAnalysis (state_of r) = get_opt data "analysis"
        ∧ List.filter is_alert (effects_of r) = [])).
Proof.
  intros r. unfold r, analyzeVideo. cbv beta iota delta [mbind handler_bind bind]. split.
  - intros Hurl. unfold analyzeVideo_begin. run_handler. by rewrite Hurl.
  - intros Hurl. rewrite analyzeVideo_begin_sends by done. cbv beta iota.
    unfold analyze_request.
    rewrite analyzeVideo_settle_run. cbv zeta.
    unfold outcome_of, state_of, effects_of.
    destruct o as [e | [] [e | data]];
      [| | destruct (nullish data) eqn:Hnull | |];
      cbn [fst snd app List.filter is_fetch is_alert azureStatus uploadStatus
           streamingInfo videoAnalysis isUploading isAnalyzing];
      (do 7 (split; [reflexivity |]));
      (split;
       [ first [by intros [=] | by intros _]
       | intros data' Heq Hdata';
         first [discriminate Heq | injection Heq as <-; first [done | congruence]] ]).
Qed.

Lemma analyzeVideo_writes_only_the_analysis_witness :
  let s := {| azureStatus := VObj {[ "configured" := VBool true ]};
              uploadStatus := VObj {[ "blob_url" := VStr "https://blob/a.mp4" ]};
              streamingInfo := VNull;
              videoAnalysis := VObj {[ "insights" := VObj ∅ ]};
              isUploading := false; isAnalyzing := false |} in
  analyzeVideo (Resolved true (inr VNull)) AzureIntegration.initial
  = (inr tt, AzureIntegration.initial, [Alert "Please upload video to Azure first"])
  ∧ videoAnalysis (state_of (analyzeVideo (Rejected {| name := "TypeError";
                                                       message := "Failed to fetch" |}) s))
    = VObj {[ "insights" := VObj ∅ ]}.
Proof.
  split.
  - exact (proj1 (analyzeVideo_writes_only_the_analysis (Resolved true (inr VNull))
                    AzureIntegration.initial) eq_refl).
  - destruct (analyzeVideo_writes_only_the_analysis
                (Rejected {| name := "TypeError"; message := "Failed to fetch" |})
                {| azureStatus := VObj {[ "configured" := VBool true ]};
                   uploadStatus := VObj {[ "blob_url" := VStr "https://blob/a.mp4" ]};
                   streamingInfo := VNull;
                   videoAnalysis := VObj {[ "insights" := VObj ∅ ]};
                   isUploading := false; isAnalyzing := false |})
      as [_ Hsent].
    destruct (Hsent eq_refl) as (_ & _ & _ & _ & _ & _ & _ & Hfail & _).
    exact (proj1 (Hfail eq_refl)).
Defined.

Lemma uploadToAzure_begin_sends (p : AzureIntegration.props) (s : AzureIntegration.state) :
  truthy (AzureIntegration.videoPath p) = true →
  uploadToAzure_begin p s
  = (inr true,
     {| azureStatus := azureStatus s; uploadStatus := uploadStatus s;
        streamingInfo := streamingInfo s; videoAnalysis := videoAnalysis s;
        isUploading := true; isAnalyzing := isAnalyzing s |},
     [upload_request p]).
Proof. intros Hpath. unfold uploadToAzure_begin. by rewrite Hpath. Qed.

Lemma uploadToAzure_settle_ok (data : value) (s : AzureIntegration.state) :
  uploadToAzure_settle (Resolved true (inr data)) s
  = (inr tt,
     {| azureStatus := azureStatus s; uploadStatus := data;
        streamingInfo := streamingInfo s; videoAnalysis := videoAnalysis s;
        isUploading := false; isAnalyzing := isAnalyzing s |},
     if nullish data then
       [ConsoleError "Error uploading to Azure:" (read_of_nullish data "blob_url");
        Alert ("Error uploading to Azure: " ++ message (read_of_nullish data "blob_url"))]
     else [stream_request (get_opt data "blob_url")]).
Proof.
  unfold uploadToAzure_settle, setUploadStatus, createStreamingEndpoints_begin,
    stream_request, get_opt.
  run_handler. by destruct data.
Qed.

(** X14. On an ok response [uploadToAzure] stores the body as
    [uploadStatus] in every case and touches no other result.  When the
    body is an object it then starts the streaming request for
    [data.blob_url] without an alert (with an empty body when the URL is
    missing), and a later [analyzeVideo] posts the same URL; when the body
    is [null] the stored status is overwritten by [null] all the same, no
    streaming request starts and the TypeError is alerted. *)
Theorem uploadToAzure_ok_stores_body_then_streams
    (p : AzureIntegration.props) (data : value) (s : AzureIntegration.state)
    (Hpath : truthy (AzureIntegration.videoPath p) = true) :
  let r := uploadToAzure p (Resolved true (inr data)) s in
  state_of r
  = {| azureStatus := azureStatus s; uploadStatus := data;
       streamingInfo := streamingInfo s; videoAnalysis := videoAnalysis s;
       isUploading := false; isAnalyzing := isAnalyzing s |}
  ∧ (nullish data = false →
     effects_of r = [upload_request p; stream_request (get_opt data "blob_url")])
  ∧ (nullish data = false → get_opt data "blob_url" = VUndefined →
     request_body (stream_request (get_opt data "blob_url")) = VObj ∅)
  ∧ (truthy (get_opt data "blob_url") = true →
     effects_of (analyzeVideo_begin (state_of r))
     = [analyze_request (get_opt data "blob_url")])
  ∧ (nullish data = true →
     effects_of r
     = [upload_request p;
        ConsoleError "Error uploading to Azure:" (read_of_nullish data "blob_url");
        Alert ("Error uploading to Azure: " ++ message (read_of_nullish data "blob_url"))]
     ∧ analyzeVideo (Resolved true (inr data)) (state_of r)
       = (inr tt, state_of r, [Alert "Please upload video to Azure first"])).
Proof.
  intros r.
  assert (Hrun : r = (inr tt,
                      {| azureStatus := azureStatus s; uploadStatus := data;
                         streamingInfo := streamingInfo s; videoAnalysis := videoAnalysis s;
                         isUploading := false; isAnalyzing := isAnalyzing s |},
                      upload_request p ::
                      (if nullish data then
                         [ConsoleError "Error uploading to Azure:"
                            (read_of_nullish data "blob_url");
                          Alert ("Error uploading to Azure: "
                                 ++ message (read_of_nullish data "blob_url"))]
                       else [stream_request (get_opt data "blob_url")]))).
  { unfold r, uploadToAzure. cbv beta iota delta [mbind handler_bind bind].
    rewrite uploadToAzure_begin_sends by done. cbv beta iota.
    by rewrite uploadToAzure_settle_ok. }
  rewrite Hrun. unfold state_of, effects_of; cbn [fst snd].
  split; [done |]. split; [by intros -> |]. split; [| split].
  - intros _ ->. by vm_compute.
  - intros Hurl. by rewrite analyzeVideo_begin_sends.
  - intros Hnull. rewrite Hnull. split; [done |].
    unfold analyzeVideo, analyzeVideo_begin. run_handler.
    cbn [uploadStatus]. by destruct data.
Qed.

Lemma uploadToAzure_ok_stores_body_then_streams_witness :
  let p := {| AzureIntegration.videoPath := VStr "/videos/a.mp4" |} in
  let earlier := {| azureStatus := VObj {[ "configured" := VBool true ]};
                    uploadStatus := VObj {[ "blob_url" := VStr "https://blob/old.mp4" ]};
                    streamingInfo := VNull; videoAnalysis := VNull;
                    isUploading := false; isAnalyzing := false |} in
  uploadStatus (state_of (uploadToAzure p (Resolved true (inr VNull)) earlier)) = VNull
  ∧ effects_of (uploadToAzure p
                  (Resolved true (inr (VObj {[ "blob_url" := VStr "https://blob/a.mp4" ]})))
                  earlier)
    = [upload_request p; stream_request (VStr "https://blob/a.mp4")].
Proof.
  split.
  - exact (f_equal uploadStatus
             (proj1 (uploadToAzure_ok_stores_body_then_streams
                       {| AzureIntegration.videoPath := VStr "/videos/a.mp4" |} VNull
                       {| azureStatus := VObj {[ "configured" := VBool true ]};
                          uploadStatus := VObj {[ "blob_url" := VStr "https://blob/old.mp4" ]};
                          streamingInfo := VNull; videoAnalysis := VNull;
                          isUploading := false; isAnalyzing := false |}
                       eq_refl))).
  - exact (proj1 (proj2 (uploadToAzure_ok_stores_body_then_streams
                    {| AzureIntegration.videoPath := VStr "/videos/a.mp4" |}
                    (VObj {[ "blob_url" := VStr "https://blob/a.mp4" ]})
                    {| azureStatus := VObj {[ "configured" := VBool true ]};
                       uploadStatus := VObj {[ "blob_url" := VStr "https://blob/old.mp4" ]};
                       streamingInfo := VNull; videoAnalysis := VNull;
                       isUploading := false; isAnalyzing := false |}
                    eq_refl)) eq_refl).
Defined.

Lemma createStreamingEndpoints_settle_run (o : settled) (s : AzureIntegration.state) :
  createStreamingEndpoints_settle o s
  = let logs e := (inr tt, s, [ConsoleError "Error creating streaming endpoints:" e]) in
    match o with
    | Rejected e => logs e
    | Resolved _ (inl e) => logs e
    | Resolved false (inr _) => (inr tt, s, [])
    | Resolved true (inr data) =>
        if nullish data then logs (read_of_nullish data "streaming")
        else
          (inr tt,
           {| azureStatus := azureStatus s; uploadStatus := uploadStatus s;
              streamingInfo := get_opt data "streaming";
              videoAnalysis := videoAnalysis s;
              isUploading := isUploading s; isAnalyzing := isAnalyzing s |},
           [])
    end.
Proof.
  destruct o as [e | [] [e | data]]; try reflexivity.
  unfold createStreamingEndpoints_settle, setStreamingInfo, get_opt. run_handler.
  by destruct data.
Qed.

(** X15. [createStreamingEndpoints] fails silently: whatever comes back it
    never throws and never shows an alert, and it writes nothing but
    [streamingInfo].  A response that is not ok leaves no trace at all,
    not even in the console; a rejected fetch or an unparsable body is
    only logged; an ok response with a body stores [data.streaming], be it
    [undefined]. *)
Theorem createStreamingEndpoints_fails_silently
    (videoUrl : value) (o : settled) (s : AzureIntegration.state) :
  let r := createStreamingEndpoints videoUrl o s in
  outcome_of r = inr tt
  ∧ List.filter is_alert (effects_of r) = []
  ∧ List.filter is_fetch (effects_of r) = [stream_request videoUrl]
  ∧ azureStatus (state_of r) = azureStatus s
  ∧ uploadStatus (state_of r) = uploadStatus s
  ∧ videoAnalysis (state_of r) = videoAnalysis s
  ∧ isUploading (state_of r) = isUploading s
  ∧ isAnalyzing (state_of r) = isAnalyzing s
  ∧ (failed o = true → streamingInfo (state_of r) = streamingInfo s)
  ∧ (∀ data, o = Resolved false (inr data) → r = (inr tt, s, [stream_request videoUrl]))
  ∧ (∀ data, o = Resolved true (inr data) → nullish data = false →
     streamingInfo (state_of r) = get_opt data "streaming").
Proof.
  intros r. unfold r, createStreamingEndpoints, createStreamingEndpoints_begin, stream_request.
  cbv beta iota delta [mbind handler_bind bind emit].
  rewrite createStreamingEndpoints_settle_run. cbv zeta.
  unfold outcome_of, state_of, effects_of.
  destruct o as [e | [] [e | data]]; [| | destruct (nullish data) eqn:Hnull | |];
    cbn [fst snd app List.filter is_fetch is_alert azureStatus uploadStatus
         streamingInfo videoAnalysis isUploading isAnalyzing];
    (do 8 (split; [reflexivity |]));
    (split; [first [by intros [=] | by intros _] |]);
    (split; intros data' Heq;
     first [discriminate Heq | injection Heq as <-; first [done | congruence]]).
Qed.

Lemma createStreamingEndpoints_fails_silently_witness :
  createStreamingEndpoints (VStr "https://blob/a.mp4")
    (Resolved false (inr (VObj {[ "error" := VStr "no media account" ]})))
    AzureIntegration.initial
  = (inr tt, AzureIntegration.initial, [stream_request (VStr "https://blob/a.mp4")]).
Proof.
  destruct (createStreamingEndpoints_fails_silently (VStr "https://blob/a.mp4")
              (Resolved false (inr (VObj {[ "error" := VStr "no media account" ]})))
              AzureIntegration.initial)
    as (_ & _ & _ & _ & _ & _ & _ & _ & _ & Hquiet & _).
  exact (Hquiet _ eq_refl).
Defined.

Lemma get_prop_not_nullish (v : value) (k : string) :
  nullish v = false → get_prop v k = inr (get_opt v k).
Proof. intros Hv. unfold get_opt. by destruct v. Qed.

Lemma part_ok_not_nullish (workflow : value) (part : string) :
  part_ok workflow part = true → nullish (get_opt workflow part) = false.
Proof. unfold part_ok. by destruct (get_opt workflow part). Qed.

Lemma runCompleteWorkflow_settle_run (o : settled) (s : AzureIntegration.state) :
  runCompleteWorkflow_settle o s
  = let fails e :=
      (inr tt,
       {| azureStatus := azureStatus s; uploadStatus := uploadStatus s;
          streamingInfo := streamingInfo s; videoAnalysis := videoAnalysis s;
          isUploading := false; isAnalyzing := isAnalyzing s |},
       [ConsoleError "Error running workflow:" e;
        Alert ("Error running workflow: " ++ message e)]) in
    match o with
    | Resolved true (inr data) =>
        match get_prop data "workflow" with
        | inl e => fails e
        | inr workflow =>
            if nullish workflow then fails (read_of_nullish workflow "upload")
            else (inr tt, stored_by_workflow workflow s, [])
        end
    | _ => fails (caught "Workflow failed" o)
    end.
Proof.
  destruct o as [e | [] [e | data]]; try reflexivity;
    unfold runCompleteWorkflow_settle, caught; run_handler.
  2: by destruct (get_prop data "error").
  destruct (get_prop data "workflow") as [e | workflow]; [done |].
  destruct (nullish workflow) eqn:Hnull.
  { unfold part_succeeded. run_handler. by destruct workflow. }
  unfold part_succeeded, stored_by_workflow, setUploadStatus, setStreamingInfo,
    setVideoAnalysis.
  run_handler. rewrite !(get_prop_not_nullish workflow) by done.
  fold (part_ok workflow "upload") (part_ok workflow "streaming")
    (part_ok workflow "analysis").
  destruct (part_ok workflow "upload") eqn:Hup;
    destruct (part_ok workflow "streaming") eqn:Hstr;
    destruct (part_ok workflow "analysis") eqn:Han;
    repeat match goal with
           | H : part_ok workflow ?part = true |- _ =>
               rewrite (get_prop_not_nullish (get_opt workflow part))
                 by (by apply part_ok_not_nullish);
               lazymatch goal with
               | Hdone : nullish (get_opt workflow part) = false |- _ => fail
               | _ => pose proof (part_ok_not_nullish workflow part H)
               end
           end;
    reflexivity.
Qed.

(** X16. [runCompleteWorkflow], once its request is out: whatever comes
    back it never throws, lowers [isUploading] and leaves [azureStatus]
    and [isAnalyzing] alone.  It is all or nothing about errors: whenever
    it shows an alert, none of [uploadStatus], [streamingInfo],
    [videoAnalysis] has changed.  On an ok response with a [workflow]
    object it shows no alert and stores each part on its own: a part whose
    [status] is not ['success'] leaves its cell as it was, and the upload
    part is stored as [{blob_url, status: 'uploaded'}]. *)
Theorem runCompleteWorkflow_stores_parts_or_nothing
    (p : AzureIntegration.props) (o : settled) (s : AzureIntegration.state)
    (Hpath : truthy (AzureIntegration.videoPath p) = true) :
  let r := runCompleteWorkflow p o s in
  outcome_of r = inr tt
  ∧ List.filter is_fetch (effects_of r) = [workflow_request p]
  ∧ isUploading (state_of r) = false
  ∧ azureStatus (state_of r) = azureStatus s
  ∧ isAnalyzing (state_of r) = isAnalyzing s
  ∧ (List.filter is_alert (effects_of r) ≠ [] →
     uploadStatus (state_of r) = uploadStatus s
     ∧ streamingInfo (state_of r) = streamingInfo s
     ∧ videoAnalysis (state_of r) = videoAnalysis s)
  ∧ (failed o = true →
     List.filter is_alert (effects_of r)
     = [Alert ("Error running workflow: " ++ message (caught "Workflow failed" o))])
  ∧ (∀ data workflow,
       o = Resolved true (inr data) → get_prop data "workflow" = inr workflow →
       nullish workflow = false →
       r = (inr tt, stored_by_workflow workflow s, [workflow_request p])).
Proof.
  intros r. unfold r, runCompleteWorkflow, runCompleteWorkflow_begin.
  rewrite Hpath. cbn [negb]. unfold setIsUploading, workflow_request.
  run_handler. rewrite runCompleteWorkflow_settle_run. cbv zeta.
  cbn [azureStatus uploadStatus streamingInfo videoAnalysis isUploading isAnalyzing].
  destruct o as [e | [] [e | data]];
    [| | destruct (get_prop data "workflow") as [e | workflow] eqn:Hw;
         [| destruct (nullish workflow) eqn:Hnull] | |];
    cbn [fst snd app List.filter is_fetch is_alert azureStatus uploadStatus
         streamingInfo videoAnalysis isUploading isAnalyzing stored_by_workflow];
    (do 5 (split; [reflexivity |]));
    (split; [first [by intros _ | intros Hshown; by destruct Hshown] |]);
    (split; [first [by intros [=] | by intros _] |]);
    (intros data' workflow' Heq Hw' Hnull';
     first [ discriminate Heq
           | injection Heq as <-;
             first [done | congruence | rewrite Hw in Hw'; injection Hw' as <-; reflexivity] ]).
Qed.

Lemma runCompleteWorkflow_stores_parts_or_nothing_witness :
  let p := {| AzureIntegration.videoPath := VStr "/videos/a.mp4" |} in
  let s := {| azureStatus := VObj {[ "configured" := VBool true ]};
              uploadStatus := VNull; streamingInfo := VNull;
              videoAnalysis := VObj {[ "keywords" := VArr [] ]};
              isUploading := false; isAnalyzing := false |} in
  let workflow :=
    VObj {[ "upload" := VObj {[ "status" := VStr "success";
                                "blob_url" := VStr "https://blob/a.mp4";
                                "cdn_url" := VStr "https://cdn/a.mp4" ]};
            "streaming" := VObj {[ "status" := VStr "error" ]};
            "analysis" := VObj {[ "status" := VStr "error" ]} ]} in
  state_of (runCompleteWorkflow p (Resolved true (inr (VObj {[ "workflow" := workflow ]}))) s)
  = {| azureStatus := VObj {[ "configured" := VBool true ]};
       uploadStatus := VObj {[ "blob_url" := VStr "https://blob/a.mp4";
                               "status" := VStr "uploaded" ]};
       streamingInfo := VNull;
       videoAnalysis := VObj {[ "keywords" := VArr [] ]};
       isUploading := false; isAnalyzing := false |}.
Proof.
  intros p s workflow.
  destruct (runCompleteWorkflow_stores_parts_or_nothing p
              (Resolved true (inr (VObj {[ "workflow" := workflow ]}))) s eq_refl)
    as (_ & _ & _ & _ & _ & _ & _ & Hstored).
  assert (Hw : get_prop (VObj {[ "workflow" := workflow ]}) "workflow" = inr workflow)
    by (vm_compute; reflexivity).
  rewrite (Hstored _ workflow eq_refl Hw eq_refl). vm_compute. reflexivity.
Defined.

(** ** The panel between clicks and settlings *)

Lemma state_eta (s : AzureIntegration.state) :
  {| azureStatus := azureStatus s; uploadStatus := uploadStatus s;
     streamingInfo := streamingInfo s; videoAnalysis := videoAnalysis s;
     isUploading := isUploading s; isAnalyzing := isAnalyzing s |} = s.
Proof. by destruct s. Qed.

Lemma resume_failed (f : suspended) (o : settled) (s : AzureIntegration.state) :
  failed o = true → f ≠ in_checkAzureStatus → f ≠ in_createStreamingEndpoints →
  state_of (resume f o s)
  = {| azureStatus := azureStatus s; uploadStatus := uploadStatus s;
       streamingInfo := streamingInfo s; videoAnalysis := videoAnalysis s;
       isUploading := if under_isUploading f then false else isUploading s;
       isAnalyzing := if under_isAnalyzing f then false else isAnalyzing s |}
  ∧ omap issuer (effects_of (resume f o s)) = [].
Proof.
  intros Hfailed Hstatus Hstream. destruct f; try done; simpl.
  - by rewrite uploadToAzure_settle_failed.
  - rewrite analyzeVideo_settle_run.
    by destruct o as [e | [] [e | data]].
  - rewrite runCompleteWorkflow_settle_run.
    by destruct o as [e | [] [e | data]].
Qed.

Lemma settle_last (s : AzureIntegration.state) (p : AzureIntegration.props)
    (l : list suspended) (f : suspended) (o : settled) :
  step {| cells := s; given := p; in_flight := l ++ [f] |} (settles (length l) o)
  = perform (resume f o) {| cells := s; given := p; in_flight := l |}.
Proof.
  cbn [step in_flight cells given].
  rewrite lookup_app_r, Nat.sub_diag by lia. cbn [lookup list_lookup].
  do 2 f_equal.
  induction l as [| x l IH]; [done |]. simpl. by rewrite IH.
Qed.

Lemma click_upload_enabled (w : panel) :
  upload_disabled w = false →
  step w click_upload
  = {| cells :=
         {| azureStatus := azureStatus (cells w); uploadStatus := uploadStatus (cells w);
            streamingInfo := streamingInfo (cells w);
            videoAnalysis := videoAnalysis (cells w);
            isUploading := true; isAnalyzing := isAnalyzing (cells w) |};
       given := given w;
       in_flight := in_flight w ++ [in_uploadToAzure] |}.
Proof.
  intros Hoff. cbn [step]. rewrite Hoff.
  apply orb_false_elim in Hoff as [Hoff _]. apply orb_false_elim in Hoff as [_ Hpath].
  apply negb_false_iff in Hpath.
  unfold perform. by rewrite uploadToAzure_begin_sends.
Qed.

Lemma click_analyze_enabled (w : panel) :
  analyze_disabled w = false →
  step w click_analyze
  = {| cells :=
         {| azureStatus := azureStatus (cells w); uploadStatus := uploadStatus (cells w);
            streamingInfo := streamingInfo (cells w);
            videoAnalysis := videoAnalysis (cells w);
            isUploading := isUploading (cells w); isAnalyzing := true |};
       given := given w;
       in_flight := in_flight w ++ [in_analyzeVideo] |}.
Proof.
  intros Hoff. cbn [step]. rewrite Hoff.
  apply orb_false_elim in Hoff as [_ Hurl]. apply negb_false_iff in Hurl.
  unfold perform. by rewrite analyzeVideo_begin_sends.
Qed.

Lemma click_workflow_enabled (w : panel) :
  workflow_disabled w = false →
  step w click_workflow
  = {| cells :=
         {| azureStatus := azureStatus (cells w); uploadStatus := uploadStatus (cells w);
            streamingInfo := streamingInfo (cells w);
            videoAnalysis := videoAnalysis (cells w);
            isUploading := true; isAnalyzing := isAnalyzing (cells w) |};
       given := given w;
       in_flight := in_flight w ++ [in_runCompleteWorkflow] |}.
Proof.
  intros Hoff. cbn [step]. rewrite Hoff.
  apply orb_false_elim in Hoff as [Hoff _]. apply orb_false_elim in Hoff as [_ Hpath].
  apply negb_false_iff in Hpath.
  unfold perform, runCompleteWorkflow_begin. by rewrite Hpath.
Qed.

Lemma failed_settle_restores (w : panel) (f : suspended) (o : settled) :
  failed o = true → f ≠ in_checkAzureStatus → f ≠ in_createStreamingEndpoints →
  (if under_isUploading f then isUploading (cells w) = false else True) →
  (if under_isAnalyzing f then isAnalyzing (cells w) = false else True) →
  perform (resume f o)
    {| cells :=
         {| azureStatus := azureStatus (cells w); uploadStatus := uploadStatus (cells w);
            streamingInfo := streamingInfo (cells w);
            videoAnalysis := videoAnalysis (cells w);
            isUploading := if under_isUploading f then true else isUploading (cells w);
            isAnalyzing := if under_isAnalyzing f then true else isAnalyzing (cells w) |};
       given := given w;
       in_flight := in_flight w |}
  = w.
Proof.
  intros Hfailed Hstatus Hstream Hup Han. unfold perform. cbn [cells given in_flight].
  match goal with
  | |- context [resume f o ?s1] =>
      destruct (resume_failed f o s1 Hfailed Hstatus Hstream) as [-> ->]
  end.
  rewrite app_nil_r. destruct w as [s p l]. cbn in *. f_equal.
  destruct s as [a u st v iu ia]. cbn in *.
  destruct f; try done; cbn in *; by subst.
Qed.

(** X17. A failed action leaves the panel exactly as it was: for each of
    Upload, Analyze and Complete Workflow, a click on the enabled button
    followed by the failure of the request it sent (rejected fetch,
    unparsable body or response not ok) gives back the very panel from
    before the click, state cells and in-flight requests alike. *)
Theorem failed_action_restores_panel (w : panel) (o : settled)
    (Hfailed : failed o = true) :
  (upload_disabled w = false →
   step (step w click_upload) (settles (length (in_flight w)) o) = w)
  ∧ (analyze_disabled w = false →
     step (step w click_analyze) (settles (length (in_flight w)) o) = w)
  ∧ (workflow_disabled w = false →
     step (step w click_workflow) (settles (length (in_flight w)) o) = w).
Proof.
  split; [| split]; intros Hoff.
  - rewrite click_upload_enabled by done.
    rewrite settle_last.
    apply orb_false_elim in Hoff as [Hoff _]. apply orb_false_elim in Hoff as [Hidle _].
    by apply (failed_settle_restores w in_uploadToAzure).
  - rewrite click_analyze_enabled by done.
    rewrite settle_last.
    apply orb_false_elim in Hoff as [Hidle _].
    by apply (failed_settle_restores w in_analyzeVideo).
  - rewrite click_workflow_enabled by done.
    rewrite settle_last.
    apply orb_false_elim in Hoff as [Hoff _]. apply orb_false_elim in Hoff as [Hidle _].
    by apply (failed_settle_restores w in_runCompleteWorkflow).
Qed.

Lemma failed_action_restores_panel_witness :
  let w := {| cells := {| azureStatus := VObj {[ "configured" := VBool true ]};
                          uploadStatus := VObj {[ "blob_url" := VStr "https://blob/a.mp4" ]};
                          streamingInfo := VNull; videoAnalysis := VNull;
                          isUploading := false; isAnalyzing := false |};
              given := {| AzureIntegration.videoPath := VStr "/videos/a.mp4" |};
              in_flight := [in_createStreamingEndpoints] |} in
  let o := Resolved false (inr (VObj {[ "error" := VStr "quota exceeded" ]})) in
  step (step w click_upload) (settles 1 o) = w
  ∧ step (step w click_analyze) (settles 1 o) = w.
Proof.
  intros w o.
  destruct (failed_action_restores_panel w o eq_refl) as (Hupload & Hanalyze & _).
  split; [exact (Hupload eq_refl) | exact (Hanalyze eq_refl)].
Defined.

#[local] Instance same_status_preorder : PreOrder same_status.
Proof.
  split.
  - by intros s.
  - intros s1 s2 s3 H1 H2. unfold same_status in *. congruence.
Qed.

(** For a handler of the shape [try { .. } catch { .. } finally { f }]:
    frame the protected part by [same_status], then run [f]. *)
Ltac frame_status_then_finally s :=
  match goal with
  | |- context [try_finally ?m ?f s] =>
      let Hm := fresh "Hm" in
      assert (Hm : framed same_status not_status_request m) by (repeat frame_step);
      destruct (Hm s) as [? ?];
      destruct (try_finally_run m f s) as [-> ->]
  end.

(** Only [checkAzureStatus] writes [azureStatus], and no other function
    asks for the status. *)
Lemma resume_keeps_status (f : suspended) (o : settled) (s : AzureIntegration.state) :
  f ≠ in_checkAzureStatus →
  azureStatus (state_of (resume f o s)) = azureStatus s
  ∧ Forall not_status_request (effects_of (resume f o s)).
Proof.
  intros Hf. destruct f; [done | | | |]; simpl.
  - unfold uploadToAzure_settle, setUploadStatus, createStreamingEndpoints_begin.
    frame_status_then_finally s. split; [done |]. by rewrite app_nil_r.
  - assert (Hm : framed same_status not_status_request (createStreamingEndpoints_settle o)).
    { unfold createStreamingEndpoints_settle, setStreamingInfo. repeat frame_step. }
    by destruct (Hm s).
  - unfold analyzeVideo_settle, setVideoAnalysis.
    frame_status_then_finally s. split; [done |]. by rewrite app_nil_r.
  - unfold runCompleteWorkflow_settle, part_succeeded,
      setUploadStatus, setStreamingInfo, setVideoAnalysis.
    frame_status_then_finally s. split; [done |]. by rewrite app_nil_r.
Qed.

Lemma no_status_request_issued (effects : list effect) :
  Forall not_status_request effects → in_checkAzureStatus ∉ omap issuer effects.
Proof.
  induction 1 as [| e rest He _ IH]; [apply not_elem_of_nil |].
  unfold not_status_request in He. simpl.
  destruct (issuer e) as [f |]; [| done].
  apply not_elem_of_cons. split; [congruence | done].
Qed.

Lemma checkAzureStatus_settle_run (o : settled) (s : AzureIntegration.state) :
  checkAzureStatus_settle o s
  = match o with
    | Rejected e | Resolved _ (inl e) =>
        (inr tt, s, [ConsoleError "Error checking Azure status:" e])
    | Resolved _ (inr data) =>
        (inr tt,
         {| azureStatus := data; uploadStatus := uploadStatus s;
            streamingInfo := streamingInfo s; videoAnalysis := videoAnalysis s;
            isUploading := isUploading s; isAnalyzing := isAnalyzing s |},
         [])
    end.
Proof. by destruct o as [e | ok [e | data]]. Qed.

(** Once the status request has settled, a step neither brings it back
    nor changes [azureStatus]. *)
Lemma step_after_status (w : panel) (ev : event) :
  in_checkAzureStatus ∉ in_flight w →
  (in_checkAzureStatus ∉ in_flight (step w ev))
  ∧ azureStatus (cells (step w ev)) = azureStatus (cells w).
Proof.
  intros Hgone. destruct ev as [| | | i o | p].
  - destruct (upload_disabled w) eqn:Hoff; [cbn [step]; by rewrite Hoff |].
    rewrite click_upload_enabled by done. cbn. split; [| done].
    rewrite elem_of_app, list_elem_of_singleton. intros [? | ?]; done.
  - destruct (analyze_disabled w) eqn:Hoff; [cbn [step]; by rewrite Hoff |].
    rewrite click_analyze_enabled by done. cbn. split; [| done].
    rewrite elem_of_app, list_elem_of_singleton. intros [? | ?]; done.
  - destruct (workflow_disabled w) eqn:Hoff; [cbn [step]; by rewrite Hoff |].
    rewrite click_workflow_enabled by done. cbn. split; [| done].
    rewrite elem_of_app, list_elem_of_singleton. intros [? | ?]; done.
  - cbn [step]. destruct (in_flight w !! i) as [f |] eqn:Hi; [| done].
    assert (Hf : f ≠ in_checkAzureStatus).
    { intros ->. apply Hgone. by eapply list_elem_of_lookup_2. }
    destruct (resume_keeps_status f o (cells w) Hf) as [Hsame Hquiet].
    unfold perform. cbn [cells given in_flight]. split; [| done].
    rewrite elem_of_app. intros [Hin | Hin].
    + apply Hgone. by eapply list_elem_of_delete_inv.
    + by apply (no_status_request_issued _ Hquiet).
  - done.
Qed.

Lemma step_only_status (w : panel) (ev : event) :
  only_status_so_far w → only_status_so_far (step w ev).
Proof.
  intros [[Hout Hinit] | [Hgone Hrest]].
  - destruct w as [s p l]. cbn in Hout, Hinit. subst s l.
    destruct ev as [| | | i o | p']; cbn [step].
    + assert (Hoff : upload_disabled
                       {| cells := AzureIntegration.initial; given := p;
                          in_flight := [in_checkAzureStatus] |} = true)
        by (unfold upload_disabled; cbn; apply orb_true_r).
      rewrite Hoff. by left.
    + by left.
    + assert (Hoff : workflow_disabled
                       {| cells := AzureIntegration.initial; given := p;
                          in_flight := [in_checkAzureStatus] |} = true)
        by (unfold workflow_disabled; cbn; apply orb_true_r).
      rewrite Hoff. by left.
    + destruct i as [| i]; [| by left]. cbn [in_flight lookup list_lookup].
      right. unfold perform. cbn [cells given in_flight resume].
      rewrite checkAzureStatus_settle_run.
      destruct o as [e | ok [e | data]]; cbn; (split; [apply not_elem_of_nil |]);
        right; by repeat split.
    + by left.
  - destruct (step_after_status w ev Hgone) as [Hgone' Hsame].
    right. split; [done |]. rewrite Hsame.
    destruct (truthy (get_opt (azureStatus (cells w)) "configured")) eqn:Hconf; [by left |].
    destruct Hrest as [? | (Hu & Hs & Hv & Hiu & Hia & Hnone)]; [done |]. right.
    assert (Hsteady : cells (step w ev) = cells w ∧ in_flight (step w ev) = in_flight w).
    { destruct ev as [| | | i o | p']; cbn [step].
      - assert (Hoff : upload_disabled w = true)
          by (unfold upload_disabled; rewrite Hconf; apply orb_true_r).
        by rewrite Hoff.
      - assert (Hoff : analyze_disabled w = true)
          by (unfold analyze_disabled; rewrite Hu; apply orb_true_r).
        by rewrite Hoff.
      - assert (Hoff : workflow_disabled w = true)
          by (unfold workflow_disabled; rewrite Hconf; apply orb_true_r).
        by rewrite Hoff.
      - by rewrite Hnone.
      - done. }
    destruct Hsteady as [-> ->]. by repeat split.
Qed.

Lemma run_only_status (p : AzureIntegration.props) (evs : list event) :
  only_status_so_far (run p evs).
Proof.
  unfold run.
  assert (Hstart : only_status_so_far (mounted p)) by (by left).
  revert Hstart. generalize (mounted p).
  induction evs as [| ev evs IH]; intros w Hw; [done |].
  apply IH. by apply step_only_status.
Qed.

(** X18. Until the backend has reported Azure as configured, the panel
    does nothing: in every state it can reach in which
    [azureStatus?.configured] is not truthy (the status is still awaited,
    its request failed, or it came back unconfigured), no upload,
    streaming endpoint or analysis is stored, no action is under way,
    nothing but the status request itself can be in flight, and a click
    on any of the three buttons is ignored. *)
Theorem unconfigured_panel_sends_nothing
    (p : AzureIntegration.props) (evs : list event)
    (Hunconfigured : configured (cells (run p evs)) = false) :
  untouched (cells (run p evs))
  ∧ (in_flight (run p evs) = [in_checkAzureStatus] ∨ in_flight (run p evs) = [])
  ∧ step (run p evs) click_upload = run p evs
  ∧ step (run p evs) click_analyze = run p evs
  ∧ step (run p evs) click_workflow = run p evs.
Proof.
  unfold configured in Hunconfigured.
  assert (Hfacts : untouched (cells (run p evs))
                   ∧ (in_flight (run p evs) = [in_checkAzureStatus]
                      ∨ in_flight (run p evs) = [])).
  { destruct (run_only_status p evs)
      as [[Hout ->] | [Hgone [Hconf | (Hu & Hs & Hv & Hiu & Hia & Hnone)]]].
    - split; [by repeat split | by left].
    - congruence.
    - split; [by repeat split | by right]. }
  destruct Hfacts as [Hstill Hflight]. split; [done |]. split; [done |].
  destruct Hstill as (Hu & _ & _ & _ & _).
  cbn [step]. unfold upload_disabled, analyze_disabled, workflow_disabled.
  rewrite Hunconfigured, Hu. cbn. by rewrite !orb_true_r.
Qed.

Lemma unconfigured_panel_sends_nothing_witness :
  let p := {| AzureIntegration.videoPath := VStr "/videos/a.mp4" |} in
  let evs := [ click_upload;
               settles 0 (Resolved true (inr (VObj {[ "configured" := VBool false ]})));
               click_upload; click_workflow; click_analyze ] in
  in_flight (run p evs) = [] ∧ untouched (cells (run p evs)).
Proof.
  intros p evs.
  destruct (unconfigured_panel_sends_nothing p evs) as (Hstill & Hflight & _).
  { vm_compute. reflexivity. }
  split; [| exact Hstill]. vm_compute. reflexivity.
Defined.

(** * The whole application *)

Lemma fetched_urls_of_requests (effects : list effect) :
  omap fetched_url effects = omap fetched_url (List.filter is_fetch effects).
Proof.
  induction effects as [| e rest IH]; [done |].
  destruct e; simpl; first [exact IH | by f_equal].
Qed.

Lemma deliver_nothing (effects : list effect) (path : value) :
  List.filter is_onSave effects = [] → App.deliver effects path = path.
Proof.
  unfold App.deliver. revert path.
  induction effects as [| e rest IH]; intros path Hnone; [done |].
  destruct e; simpl in *; try done; by apply IH.
Qed.

Lemma updateEditConfig_logs_nothing (section key : string) (v : value) (s : VideoEditor.state) :
  effects_of (VideoEditor.updateEditConfig section key v s) = [].
Proof.
  unfold VideoEditor.updateEditConfig, VideoEditor.setEditConfig. run_handler.
  by destruct (VideoEditor.merged section key v (VideoEditor.editConfig s)).
Qed.

Lemma handle_logs_nothing (c : VideoEditor.control) (s : VideoEditor.state) :
  effects_of (VideoEditor.handle c s) = [].
Proof.
  destruct c; simpl; unfold VideoEditor.effect_switch;
    try apply updateEditConfig_logs_nothing;
    try (destruct checked; [apply updateEditConfig_logs_nothing | reflexivity]).
  reflexivity.
Qed.

Lemma applyPreset_effects (k : string) (o : settled) (s : VideoEditor.state) :
  ∃ rest,
    effects_of (VideoEditor.applyPreset k o s) = Fetch "/api/editor/presets" None :: rest
    ∧ (rest = [] ∨ ∃ e, rest = [ConsoleError "Error applying preset:" e]).
Proof.
  unfold VideoEditor.applyPreset, VideoEditor.applyPreset_begin, VideoEditor.applyPreset_settle,
    VideoEditor.setEditConfig, VideoEditor.setSelectedPreset.
  run_handler.
  destruct o as [e | ok [e | data]]; [eexists; split; [done |]; right; by eexists ..|].
  destruct (get_prop data "presets") as [e | presets];
    [eexists; split; [done |]; right; by eexists |].
  destruct (get_prop presets k) as [e | preset];
    [eexists; split; [done |]; right; by eexists |].
  destruct (truthy preset); [| eexists; split; [done |]; by left].
  destruct (get_prop preset "config");
    eexists; (split; [done |]); [right; by eexists | by left].
Qed.

Lemma click_generate_requests (randoms : list Q) (o : settled) (s : VideoGenerator.state) :
  omap fetched_url (effects_of (VideoGenerator.click_generate randoms o s)) = []
  ∨ omap fetched_url (effects_of (VideoGenerator.click_generate randoms o s))
    = ["/api/video/generate"].
Proof.
  rewrite click_generate_run.
  destruct (VideoGenerator.generate_disabled s) eqn:Hoff; [by left |]. right.
  unfold VideoGenerator.generate_disabled in Hoff.
  apply orb_false_elim in Hoff as [_ Hscript]. apply negb_false_iff in Hscript.
  assert (Htyped : trim (VideoGenerator.script s) ≠ "")
    by (intros Hblank; by rewrite Hblank in Hscript).
  destruct (generateVideo_sends_once randoms o s Htyped) as [Hsent _].
  by rewrite fetched_urls_of_requests, Hsent.
Qed.

Lemma fetchStyles_settle_requests (o : settled) (s : VideoGenerator.state) :
  omap fetched_url (effects_of (VideoGenerator.fetchStyles_settle o s)) = [].
Proof.
  by destruct (fetchStyles_settle_cases o s) as [(e & ->) | (listed & ->)].
Qed.

(** The cloud panel while it is rendered without a video. *)
Lemma cloud_step_without_video (w : AzureIntegration.panel) (ev : AzureIntegration.event) :
  AzureIntegration.given w = App.cloud_props VNull →
  AzureIntegration.uploadStatus (AzureIntegration.cells w) = VNull →
  (AzureIntegration.in_flight w = [AzureIntegration.in_checkAzureStatus]
   ∨ AzureIntegration.in_flight w = []) →
  (∀ p, ev ≠ AzureIntegration.rendered_with p) →
  AzureIntegration.given (AzureIntegration.step w ev) = App.cloud_props VNull
  ∧ AzureIntegration.uploadStatus (AzureIntegration.cells (AzureIntegration.step w ev)) = VNull
  ∧ (AzureIntegration.in_flight (AzureIntegration.step w ev)
     = [AzureIntegration.in_checkAzureStatus]
     ∨ AzureIntegration.in_flight (AzureIntegration.step w ev) = []).
Proof.
  intros Hgiven Hnone Hflight Hev.
  destruct ev as [| | | i o | p]; cbn [AzureIntegration.step].
  - assert (Hoff : AzureIntegration.upload_disabled w = true).
    { unfold AzureIntegration.upload_disabled. rewrite Hgiven. cbn.
      by rewrite orb_true_r. }
    by rewrite Hoff.
  - assert (Hoff : AzureIntegration.analyze_disabled w = true).
    { unfold AzureIntegration.analyze_disabled. rewrite Hnone. cbn. apply orb_true_r. }
    by rewrite Hoff.
  - assert (Hoff : AzureIntegration.workflow_disabled w = true).
    { unfold AzureIntegration.workflow_disabled. rewrite Hgiven. cbn.
      by rewrite orb_true_r. }
    by rewrite Hoff.
  - destruct Hflight as [Hflight | Hflight]; rewrite Hflight.
    2: { cbn. auto. }
    destruct i as [| i]; cbn [lookup list_lookup].
    2: { cbn. auto. }
    unfold AzureIntegration.perform.
    cbn [AzureIntegration.cells AzureIntegration.given AzureIntegration.in_flight
         AzureIntegration.resume].
    rewrite checkAzureStatus_settle_run.
    destruct o as [e | ok [e | data]]; cbn; auto.
  - by destruct (Hev p).
Qed.

Lemma requested_grows (a : App.state) (urls : list string) (effects : list effect) :
  Forall (λ url, url = "/api/styles/list" ∨ url = "/api/video/generate"
                 ∨ url = "/api/editor/presets") (omap fetched_url (App.log a)) →
  omap fetched_url effects = urls →
  Forall (λ url, url = "/api/styles/list" ∨ url = "/api/video/generate"
                 ∨ url = "/api/editor/presets") urls →
  Forall (λ url, url = "/api/styles/list" ∨ url = "/api/video/generate"
                 ∨ url = "/api/editor/presets")
    (omap fetched_url (App.log a ++ effects)%list).
Proof.
  intros Hlog <- Hnew. rewrite omap_app. by apply Forall_app.
Qed.

Ltac allowed_urls :=
  repeat first [apply List.Forall_nil | apply List.Forall_cons; [by auto |]].

Lemma step_no_video_yet (a : App.state) (ev : App.event) :
  App.no_video_yet a → App.no_video_yet (App.step a ev).
Proof.
  intros (Hpath & Hgiven & Hnone & Hflight & Hlog). unfold App.requested in Hlog.
  assert (Hgenerator : ∀ r awaiting,
            omap fetched_url (effects_of r) = []
            ∨ omap fetched_url (effects_of r) = ["/api/video/generate"] →
            App.no_video_yet (App.with_generator a r awaiting)).
  { intros r awaiting Hurls. repeat split; try done.
    unfold App.requested, App.with_generator; cbn [App.log].
    destruct Hurls as [Hurls | Hurls];
      (eapply requested_grows; [done | exact Hurls |]); allowed_urls. }
  assert (Heditor : ∀ r urls,
            List.filter is_onSave (effects_of r) = [] →
            omap fetched_url (effects_of r) = urls →
            Forall (λ url, url = "/api/styles/list" ∨ url = "/api/video/generate"
                           ∨ url = "/api/editor/presets") urls →
            App.no_video_yet (App.with_editor a r)).
  { intros r urls Hsilent Hurls Hallowed.
    unfold App.no_video_yet, App.with_editor. cbn.
    rewrite (deliver_nothing _ _ Hsilent), Hpath.
    repeat split; try done.
    unfold App.requested; cbn [App.log]. by eapply requested_grows. }
  destruct ev as [text | o | randoms o | c | k o | o | ev]; cbn [App.step].
  - apply Hgenerator. by left.
  - destruct (App.awaiting_styles a); [| by repeat split].
    apply Hgenerator. left. apply fetchStyles_settle_requests.
  - apply Hgenerator. apply click_generate_requests.
  - apply (Heditor _ []); rewrite ?handle_logs_nothing; first [done | allowed_urls].
  - destruct (applyPreset_effects k o (App.editor a)) as (rest & Heffects & Hrest).
    apply (Heditor _ ["/api/editor/presets"]); rewrite ?Heffects.
    + by destruct Hrest as [-> | [e ->]].
    + by destruct Hrest as [-> | [e ->]].
    + allowed_urls.
  - assert (Hoff : VideoEditor.save_disabled (App.editor_props a) (App.editor a) = true).
    { unfold VideoEditor.save_disabled, App.editor_props. cbn. rewrite Hpath. cbn.
      apply orb_true_r. }
    rewrite click_save_run, Hoff. apply (Heditor _ []); first [done | allowed_urls].
  - assert (Hcloud : (∀ p, ev ≠ AzureIntegration.rendered_with p) →
              App.no_video_yet (App.with_cloud a (AzureIntegration.step (App.cloud a) ev))).
    { intros Hev.
      destruct (cloud_step_without_video (App.cloud a) ev Hgiven Hnone Hflight Hev)
        as (Hgiven' & Hnone' & Hflight').
      by repeat split. }
    destruct ev; try (apply Hcloud; by intros p); by repeat split.
Qed.

Lemma run_no_video_yet (evs : list App.event) : App.no_video_yet (App.run evs).
Proof.
  unfold App.run.
  assert (Hstart : App.no_video_yet App.mounted).
  { repeat split; try done; [by left |].
    unfold App.requested. cbn. allowed_urls. }
  revert Hstart. generalize App.mounted.
  induction evs as [| ev evs IH]; intros a Ha; [done |].
  apply IH. by apply step_no_video_yet.
Qed.

(** X19. No video ever reaches [App]: the generation form never calls the
    [onVideoGenerated] it is handed, and the edit form can call [onSave]
    only after a submit that needs a path already.  So in every state the
    application can reach [currentVideoPath] is still [null]; the Apply
    Edits, Upload and Complete Workflow buttons are disabled; no request
    has gone to [/api/editor/edit]; and the cloud panel has stored no
    upload and sent nothing but its status request. *)
Theorem currentVideoPath_stays_null (evs : list App.event) :
  App.currentVideoPath (App.run evs) = VNull
  ∧ VideoEditor.save_disabled (App.editor_props (App.run evs)) (App.editor (App.run evs))
    = true
  ∧ AzureIntegration.upload_disabled (App.cloud (App.run evs)) = true
  ∧ AzureIntegration.workflow_disabled (App.cloud (App.run evs)) = true
  ∧ AzureIntegration.analyze_disabled (App.cloud (App.run evs)) = true
  ∧ ("/api/editor/edit" ∉ App.requested (App.run evs))
  ∧ AzureIntegration.uploadStatus (AzureIntegration.cells (App.cloud (App.run evs))) = VNull
  ∧ (AzureIntegration.in_flight (App.cloud (App.run evs))
     = [AzureIntegration.in_checkAzureStatus]
     ∨ AzureIntegration.in_flight (App.cloud (App.run evs)) = []).
Proof.
  destruct (run_no_video_yet evs) as (Hpath & Hgiven & Hnone & Hflight & Hlog).
  split; [done |].
  split.
  { unfold VideoEditor.save_disabled, App.editor_props. cbn. rewrite Hpath. cbn.
    apply orb_true_r. }
  split.
  { unfold AzureIntegration.upload_disabled. rewrite Hgiven. cbn. by rewrite orb_true_r. }
  split.
  { unfold AzureIntegration.workflow_disabled. rewrite Hgiven. cbn. by rewrite orb_true_r. }
  split.
  { unfold AzureIntegration.analyze_disabled. rewrite Hnone. cbn. apply orb_true_r. }
  split; [| done].
  intros Hin. rewrite Forall_forall in Hlog.
  by destruct (Hlog _ Hin) as [? | [? | ?]].
Qed.
